(** * Accessible Formik / Bootstrap form fields

    A shallow embedding of [src/index.tsx]: the focus hook
    [useFocusInvalidField], the two field components [BootstrapInput] and
    [BootstrapSelect], and the option renderer [RenderOptions].

    React function components are modelled by the element tree they return,
    JSX props objects by finite maps built in the order JSX assigns them, and
    the hook by a step function over the state React keeps for one mounted
    instance between renders. *)

From stdpp Require Import base option list strings gmap.
From Stdlib Require Import ZArith Ascii.

Set Default Proof Using "Type".

(** ** Formik state read by the code *)

(** A Formik error object.  [errors_entries] holds its own enumerable
    properties in the order in which [Object.keys] enumerates them, and
    [errors_ref] is the identity of the object: React compares effect
    dependencies with [Object.is], which for objects looks at nothing else. *)
Record FormikErrors := {
  errors_ref : nat;
  errors_entries : list (string * string)
}.

Definition Object_keys (o : FormikErrors) : list string :=
  (errors_entries o).*1.

(** The part of the Formik bag that is read: [useFormikContext()] and
    [fieldProps.form] both have this shape. *)
Record FormikProps := {
  submitCount : Z;
  isSubmitting : bool;
  errors : FormikErrors
}.

(** How a JavaScript callback ends. *)
Inductive Completion (A : Type) :=
| Normal (a : A)
| Throw (reason : string).
Arguments Normal {A} a.
Arguments Throw {A} reason.

Definition completed {A} (c : Completion (list A)) : list A :=
  match c with Normal l => l | Throw _ => [] end.

(** ** The focus hook *)

Section FocusHook.
(** DOM elements, as held by the two refs. *)
Context {E : Type}.

(** One call of [focusAndScrollIntoViewIfRequired], with its three
    arguments. *)
Record HelperCall := {
  focusTarget : E;
  scrollIntoViewTarget : E;
  useSmoothScroll : bool
}.

(** The body of the effect (lines 77-93).  [wasSubmitting] is what
    [usePrevious] returned during this render ([None] is [undefined]),
    [fieldRef] and [containerElementRef] are the [current] fields of the two
    refs when the effect runs ([None] is [null]).  [Object.keys(...)[0]] is
    [undefined] for an empty object, which is [===] to no string. *)
Definition focus_effect (wasSubmitting : option bool)
    (formikContext : FormikProps) (name : string) (smoothScroll : bool)
    (fieldRef containerElementRef : option E)
    : Completion (list HelperCall) :=
  let firstError := head (Object_keys (errors formikContext)) in
  if bool_decide (wasSubmitting = Some true)
     && negb (isSubmitting formikContext)
     && bool_decide (firstError = Some name)
  then
    match fieldRef with
    | Some field =>
        Normal [ {| focusTarget := field;
                    scrollIntoViewTarget := default field containerElementRef;
                    useSmoothScroll := smoothScroll |} ]
    | None => Normal []
    end
  else Normal [].

(** The dependency array of the effect (lines 94-100).  React re-runs the
    effect when some entry is not [Object.is] its value at the last run. *)
Record EffectDeps := {
  dep_wasSubmitting : option bool;
  dep_isSubmitting : bool;
  dep_name : string;
  dep_errors : nat;
  dep_smoothScroll : bool
}.

#[export] Instance EffectDeps_eq_dec : EqDecision EffectDeps.
Proof. solve_decision. Defined.

(** The two refs of [usePrevious]: the value of the latest render and the
    value it took the place of. *)
Record PreviousRefs := {
  prevRef : option bool;
  curRef : option bool
}.

(** [usePrevious] of the imported package ahooks, whose code is not among the
    sources, as that package (version 3) has it: a render whose value is not
    [Object.is] the one in [curRef] moves that one to [prevRef] and stores
    the new value, any other render leaves both refs alone, and the hook
    returns [prevRef.current].  So it yields the last value that differed
    from the present one, and [undefined] until the value first changes;
    this is not always the value of the render before.  The result is the
    returned value paired with the refs after the render. *)
Definition usePrevious (refs : PreviousRefs) (state : bool)
    : option bool * PreviousRefs :=
  if bool_decide (curRef refs = Some state)
  then (prevRef refs, refs)
  else (curRef refs, {| prevRef := curRef refs; curRef := Some state |}).

(** What React keeps for one mounted instance of the hook from one render to
    the next: the refs of [usePrevious] and the dependencies of the last
    run of the effect ([None] before the first render). *)
Record HookState := {
  previous_refs : PreviousRefs;
  effect_deps : option EffectDeps
}.

Definition mount : HookState :=
  {| previous_refs := {| prevRef := None; curRef := None |};
     effect_deps := None |}.

(** What one render of the hook sees: its two arguments ([None] for an
    omitted [smoothScroll]), the Formik context, and the content of the two
    refs once React has committed the render. *)
Record HookInput := {
  in_name : string;
  in_smoothScroll : option bool;
  in_formik : FormikProps;
  in_fieldRef : option E;
  in_containerElementRef : option E
}.

(** One render of [useFocusInvalidField] followed by its effect phase.
    [smoothScroll = false] is the default of the parameter. *)
Definition useFocusInvalidField (st : HookState) (i : HookInput)
    : HookState * Completion (list HelperCall) :=
  let name := in_name i in
  let smoothScroll := default false (in_smoothScroll i) in
  let formikContext := in_formik i in
  let '(wasSubmitting, refs) :=
    usePrevious (previous_refs st) (isSubmitting formikContext) in
  let deps := {| dep_wasSubmitting := wasSubmitting;
                 dep_isSubmitting := isSubmitting formikContext;
                 dep_name := name;
                 dep_errors := errors_ref (errors formikContext);
                 dep_smoothScroll := smoothScroll |} in
  let st' := {| previous_refs := refs; effect_deps := Some deps |} in
  if bool_decide (effect_deps st = Some deps)
  then (st', Normal [])
  else (st', focus_effect wasSubmitting formikContext name smoothScroll
               (in_fieldRef i) (in_containerElementRef i)).

(** [wasSubmitting] (line 75) at a render that finds the instance in state
    [st]. *)
Definition wasSubmitting (st : HookState) (i : HookInput) : option bool :=
  (usePrevious (previous_refs st) (isSubmitting (in_formik i))).1.

(** The state of the instance after a sequence of renders, oldest first. *)
Definition after_renders (history : list HookInput) : HookState :=
  foldl (λ st i, (useFocusInvalidField st i).1) mount history.

(** The outcome of the effect phase of render [i] coming after [history]. *)
Definition tick (history : list HookInput) (i : HookInput)
    : Completion (list HelperCall) :=
  (useFocusInvalidField (after_renders history) i).2.

(** The helper calls made by each of the renders [rs] that follow
    [history]. *)
Fixpoint ticks (history : list HookInput) (rs : list HookInput)
    : list (list HelperCall) :=
  match rs with
  | [] => []
  | r :: rs' => completed (tick history r) :: ticks (history ++ [r]) rs'
  end.
End FocusHook.

Arguments HelperCall : clear implicits.
Arguments HookInput : clear implicits.

(** ** The focus-and-scroll helper *)

Section Helper.
Context {E : Type}.

(** What the helper does to the page. *)
Inductive DomAction :=
| MoveFocus (target : E)
| ScrollIntoView (target : E) (smooth : bool).

(** What the helper reads of the page and of the user's settings. *)
Record Viewport := {
  fully_visible : E → bool;
  prefers_reduced_motion : bool
}.

(** Modelled from the spec: [focusAndScrollIntoViewIfRequired] of the imported
    package oaf-side-effects, whose code is not among the sources.  The spec
    (§4.1, §6) has it move keyboard focus to the focus target, scroll the
    scroll target into view only if it is not already fully visible, and
    force instant scrolling under a reduced-motion preference whatever
    smoothness was asked for. *)
Definition focusAndScrollIntoViewIfRequired (page : Viewport)
    (c : HelperCall E) : list DomAction :=
  MoveFocus (focusTarget c) ::
  (if fully_visible page (scrollIntoViewTarget c) then []
   else [ScrollIntoView (scrollIntoViewTarget c)
           (useSmoothScroll c && negb (prefers_reduced_motion page))]).

Definition is_focus (a : DomAction) : bool :=
  match a with MoveFocus _ => true | ScrollIntoView _ _ => false end.

Definition is_scroll (a : DomAction) : bool :=
  match a with MoveFocus _ => false | ScrollIntoView _ _ => true end.

Definition focus_moves (acts : list DomAction) : nat :=
  length (filter (λ a, is_focus a = true) acts).

Definition scroll_actions (acts : list DomAction) : nat :=
  length (filter (λ a, is_scroll a = true) acts).

(** Everything done to the page by the helper calls of a run of renders. *)
Definition page_actions (page : Viewport) (calls : list (list (HelperCall E)))
    : list DomAction :=
  concat calls ≫= focusAndScrollIntoViewIfRequired page.
End Helper.

Arguments DomAction : clear implicits.
Arguments Viewport : clear implicits.

(** ** Element trees *)

(** The values a JSX attribute takes in this code. *)
Inductive PropValue :=
| PUndefined
| PString (s : string)
| PBool (b : bool)
| PNumber (n : Z)
| PStrings (l : list string)
| PHandler (h : nat).

#[export] Instance PropValue_eq_dec : EqDecision PropValue.
Proof. solve_decision. Defined.

(** React's [Key]: a string or a number. *)
Inductive Key :=
| KeyString (s : string)
| KeyNumber (n : Z).

#[export] Instance Key_eq_dec : EqDecision Key.
Proof. solve_decision. Defined.

(** The two refs the hook hands out. *)
Inductive HookRef := fieldRef | containerElementRef.

#[export] Instance HookRef_eq_dec : EqDecision HookRef.
Proof. solve_decision. Defined.

(** A rendered tree.  [Element] is a host element with its [key], the ref
    attached to it, its props object and its children; [ErrorMessage] is
    Formik's component of that name with its [name] prop and its render
    function as child. *)
#[local] Unset Elimination Schemes.
Inductive VNode :=
| Text (s : string)
| Element (tag : string) (key : option Key) (ref : option HookRef)
    (props : gmap string PropValue) (children : list VNode)
| ErrorMessage (name : string) (render : string → VNode).
#[local] Set Elimination Schemes.

(** The entries of a JSX opening tag, left to right: [k={v}] or [{...o}]. *)
Inductive JsxAttribute :=
| attr (k : string) (v : PropValue)
| spread (o : gmap string PropValue).

(** The props object of a JSX element: later entries overwrite earlier ones. *)
Definition jsx_props (entries : list JsxAttribute) : gmap string PropValue :=
  foldl (λ acc e,
           match e with
           | attr k v => <[k:=v]> acc
           | spread o => o ∪ acc
           end) ∅ entries.

(** [{...o}] for an optional object: spreading [undefined] adds nothing. *)
Definition spread_optional (o : option (gmap string PropValue))
    : JsxAttribute :=
  spread (default ∅ o).

(** JSX children: an [undefined] child renders nothing. *)
Definition jsx_children (slots : list (option VNode)) : list VNode :=
  omap id slots.

(** The attribute an element shows for a prop: a prop that is missing or
    [undefined] sets none. *)
Definition attribute (n : VNode) (k : string) : option PropValue :=
  match n with
  | Element _ _ _ props _ =>
      match props !! k with
      | Some PUndefined | None => None
      | Some v => Some v
      end
  | _ => None
  end.

Definition children_of (n : VNode) : list VNode :=
  match n with Element _ _ _ _ ch => ch | _ => [] end.

Definition tag_of (n : VNode) : option string :=
  match n with Element tag _ _ _ _ => Some tag | _ => None end.

Definition ref_of (n : VNode) : option HookRef :=
  match n with Element _ _ rf _ _ => rf | _ => None end.

(** The element a ref points at once React has committed [nodes]: the one
    that carries the ref. *)
Fixpoint ref_current (r : HookRef) (nodes : list VNode) : option VNode :=
  match nodes with
  | [] => None
  | n :: rest =>
      if bool_decide (ref_of n = Some r) then Some n else ref_current r rest
  end.

(** The tokens of a [class] attribute, as the DOM's [classList] has them:
    the maximal runs without a space. *)
Fixpoint split_spaces (cur s : string) : list string :=
  match s with
  | EmptyString => [cur]
  | String c s' =>
      if Ascii.eqb c " "%char then cur :: split_spaces "" s'
      else split_spaces (cur +:+ String c "") s'
  end.

Definition class_tokens (s : string) : list string :=
  filter (λ t, t ≠ "") (split_spaces "" s).

(** The class list of an element; empty without a [className] string. *)
Definition classList (n : VNode) : list string :=
  match attribute n "className" with
  | Some (PString s) => class_tokens s
  | _ => []
  end.

Definition is_error_message (n : VNode) : bool :=
  match n with ErrorMessage _ _ => true | _ => false end.

(** ** Props of the field components *)

Module FieldInputProps.
Record t := {
  name : string;
  value : PropValue;
  onChange : nat;
  onBlur : nat;
  checked : option bool;
  multiple : option bool
}.

(** The own properties of the object, as [{...field}] copies them. *)
Definition object (f : t) : gmap string PropValue :=
  jsx_props
    ([attr "name" (PString (name f)); attr "value" (value f);
      attr "onChange" (PHandler (onChange f));
      attr "onBlur" (PHandler (onBlur f))]
     ++ (if checked f is Some b then [attr "checked" (PBool b)] else [])
     ++ (if multiple f is Some b then [attr "multiple" (PBool b)] else [])).
End FieldInputProps.

Module FieldMetaProps.
Record t := {
  error : option string;
  touched : bool
}.
End FieldMetaProps.

Module FieldProps.
Record t := {
  field : FieldInputProps.t;
  meta : FieldMetaProps.t;
  form : FormikProps
}.
End FieldProps.

Module InputProps.
Record t := {
  fieldProps : FieldProps.t;
  label : VNode;
  labelProps : option (gmap string PropValue);
  inputProps : option (gmap string PropValue)
}.
End InputProps.

(** ** Select options *)

(** [SelectOptionOrGroup<A>]: a JavaScript object told apart by its fields
    alone.  A missing field is [None].  [options] is never read on an object
    that [isSelectOption] accepts, and the type gives it to every other
    object, so the model keeps a list ([[]] where the field is missing). *)
Module SelectOptionOrGroup.
#[local] Unset Elimination Schemes.
Inductive t := Build {
  value : option string;
  label : option string;
  disabled : option bool;
  key : option Key;
  options : list t
}.
#[local] Set Elimination Schemes.
End SelectOptionOrGroup.

Definition SelectOptions := list SelectOptionOrGroup.t.

Definition isSelectOption (o : SelectOptionOrGroup.t) : bool :=
  negb (bool_decide (SelectOptionOrGroup.label o = None))
  && negb (bool_decide (SelectOptionOrGroup.value o = None)).

Definition optional_string (s : option string) : PropValue :=
  match s with Some s => PString s | None => PUndefined end.

Definition optional_bool (b : option bool) : PropValue :=
  match b with Some b => PBool b | None => PUndefined end.

(** The callback of [options.map] in [RenderOptions] (lines 232-242); the
    nested [<RenderOptions options={o.options} />] is the callback mapped over
    [o.options]. *)
Fixpoint RenderOptions_item (o : SelectOptionOrGroup.t) : VNode :=
  if isSelectOption o then
    Element "option" (SelectOptionOrGroup.key o) None
      (jsx_props
         [attr "value" (optional_string (SelectOptionOrGroup.value o));
          attr "disabled" (optional_bool (SelectOptionOrGroup.disabled o))])
      (jsx_children [Text <$> SelectOptionOrGroup.label o])
  else
    Element "optgroup" (SelectOptionOrGroup.key o) None
      (jsx_props
         [attr "label" (optional_string (SelectOptionOrGroup.label o));
          attr "disabled" (optional_bool (SelectOptionOrGroup.disabled o))])
      (map RenderOptions_item (SelectOptionOrGroup.options o)).

Definition RenderOptions (options : SelectOptions) : list VNode :=
  map RenderOptions_item options.

(** *** Positions in a tree *)

(** A position is the list of array indices that leads from the top-level
    array to a node. *)
Definition Position := list nat.

(** [f i x] for each member [x] of an array, [i] its index counted from
    [start], the results one after the other. *)
Definition concat_indexed {A B} (f : nat → A → list B)
    : nat → list A → list B :=
  fix go (start : nat) (l : list A) : list B :=
    match l with
    | [] => []
    | x :: l' => f start x ++ go (S start) l'
    end.

(** The nodes of the option tree under [o] in depth-first pre-order: the node
    at [here], then what lies under each member of its [options] in array
    order.  The tree is the one the type guard sees: an object that
    [isSelectOption] accepts is a leaf. *)
Fixpoint option_preorder (here : Position) (o : SelectOptionOrGroup.t)
    : list (Position * SelectOptionOrGroup.t) :=
  (here, o) ::
  (if isSelectOption o then []
   else concat_indexed (λ i child, option_preorder (here ++ [i]) child)
          0 (SelectOptionOrGroup.options o)).

Definition option_positions (options : SelectOptions)
    : list (Position * SelectOptionOrGroup.t) :=
  concat_indexed (λ i o, option_preorder [i] o) 0 options.

(** The elements of a rendered tree in document order, with their
    positions. *)
Fixpoint element_preorder (here : Position) (n : VNode)
    : list (Position * VNode) :=
  match n with
  | Element _ _ _ _ children =>
      (here, n) ::
      concat_indexed (λ i child, element_preorder (here ++ [i]) child)
        0 children
  | _ => []
  end.

Definition element_positions (nodes : list VNode)
    : list (Position * VNode) :=
  concat_indexed (λ i n, element_preorder [i] n) 0 nodes.

Definition is_option_element (n : VNode) : bool :=
  bool_decide (tag_of n = Some "option").

(** ** The field components *)

(** [BootstrapErrorMessage] (lines 110-121). *)
Definition BootstrapErrorMessage (name id : string) : VNode :=
  ErrorMessage name
    (λ errorMessage,
       Element "div" None None
         (jsx_props [attr "className" (PString "invalid-feedback");
                     attr "id" (PString id)])
         [Text errorMessage]).

(** The lines both components share word for word (146-160 and 274-285). *)

(** [props.inputProps?.id ?? name]; the type gives [id] as a string or
    [undefined]. *)
Definition element_id (inputProps : option (gmap string PropValue))
    (name : string) : string :=
  match inputProps ≫= (.!! "id") with
  | Some (PString id) => id
  | _ => name
  end.

Definition isInvalid (fieldProps : FieldProps.t) : bool :=
  negb (bool_decide
          (FieldMetaProps.error (FieldProps.meta fieldProps) = None)).

Definition isSubmitted (fieldProps : FieldProps.t) : bool :=
  bool_decide (0 < submitCount (FieldProps.form fieldProps))%Z.

Definition invalidFeedbackId (id : string) : string := id +:+ "-feedback".

Definition validationClass (fieldProps : FieldProps.t) : string :=
  if isSubmitted fieldProps
  then if isInvalid fieldProps then " is-invalid" else " is-valid"
  else "".

(** [props.fieldProps.field.value ?? ""] *)
Definition value_or_empty (v : PropValue) : PropValue :=
  match v with PUndefined => PString "" | _ => v end.

Definition isCheckboxOrRadio (inputProps : option (gmap string PropValue))
    : bool :=
  bool_decide (inputProps ≫= (.!! "type") = Some (PString "checkbox"))
  || bool_decide (inputProps ≫= (.!! "type") = Some (PString "radio")).

(** The [className] expression of the [<input>] (lines 174-177). *)
Definition input_className (props : InputProps.t) : string :=
  (if isCheckboxOrRadio (InputProps.inputProps props)
   then "form-check-input" else "form-control")
  +:+ validationClass (InputProps.fieldProps props).

(** The [<label>] of [BootstrapInput] (lines 164-171). *)
Definition input_label (props : InputProps.t) : VNode :=
  let name :=
    FieldInputProps.name (FieldProps.field (InputProps.fieldProps props)) in
  Element "label" None (Some containerElementRef)
    (jsx_props
       [attr "className"
          (PString (if isCheckboxOrRadio (InputProps.inputProps props)
                    then "form-check-label" else "form-label"));
        spread_optional (InputProps.labelProps props);
        attr "htmlFor"
          (PString (element_id (InputProps.inputProps props) name))])
    [InputProps.label props].

(** The [<input>] of [BootstrapInput] (lines 172-187). *)
Definition input_element (props : InputProps.t) : VNode :=
  let fieldProps := InputProps.fieldProps props in
  let name := FieldInputProps.name (FieldProps.field fieldProps) in
  let id := element_id (InputProps.inputProps props) name in
  Element "input" None (Some fieldRef)
    (jsx_props
       [attr "className" (PString (input_className props));
        spread (FieldInputProps.object (FieldProps.field fieldProps));
        spread_optional (InputProps.inputProps props);
        attr "id" (PString id);
        attr "value"
          (value_or_empty
             (FieldInputProps.value (FieldProps.field fieldProps)));
        attr "aria-invalid" (PBool (isInvalid fieldProps));
        attr "aria-describedby"
          (if isInvalid fieldProps
           then PString (invalidFeedbackId id) else PUndefined)])
    [].

(** The tree [BootstrapInput] returns (lines 162-190): a fragment. *)
Definition BootstrapInput (props : InputProps.t) : list VNode :=
  let fieldProps := InputProps.fieldProps props in
  let name := FieldInputProps.name (FieldProps.field fieldProps) in
  let id := element_id (InputProps.inputProps props) name in
  [ input_label props;
    input_element props;
    BootstrapErrorMessage name (invalidFeedbackId id) ].

Module BootstrapOptions.
Record t := { floatingLabel : option bool }.
End BootstrapOptions.

Module SelectProps.
Record t := {
  fieldProps : FieldProps.t;
  label : VNode;
  labelProps : option (gmap string PropValue);
  inputProps : option (gmap string PropValue);
  options : option SelectOptions;
  bootstrapOptions : option BootstrapOptions.t
}.
End SelectProps.

(** [props.bootstrapOptions?.floatingLabel ?? false] *)
Definition isFloatingLabel (props : SelectProps.t) : bool :=
  default false
    (SelectProps.bootstrapOptions props ≫= BootstrapOptions.floatingLabel).

(** The [className] expression of the [<select>] (line 303). *)
Definition select_className (props : SelectProps.t) : string :=
  "form-select" +:+ validationClass (SelectProps.fieldProps props).

(** The [label] constant of [BootstrapSelect] (lines 289-293). *)
Definition select_label (props : SelectProps.t) : VNode :=
  let name :=
    FieldInputProps.name (FieldProps.field (SelectProps.fieldProps props)) in
  Element "label" None None
    (jsx_props
       [attr "className" (PString "form-label");
        spread_optional (SelectProps.labelProps props);
        attr "htmlFor"
          (PString (element_id (SelectProps.inputProps props) name))])
    [SelectProps.label props].

(** The [<select>] of [BootstrapSelect] (lines 301-315). *)
Definition select_element (props : SelectProps.t) : VNode :=
  let fieldProps := SelectProps.fieldProps props in
  let name := FieldInputProps.name (FieldProps.field fieldProps) in
  let id := element_id (SelectProps.inputProps props) name in
  Element "select" None (Some fieldRef)
    (jsx_props
       [attr "className" (PString (select_className props));
        spread (FieldInputProps.object (FieldProps.field fieldProps));
        spread_optional (SelectProps.inputProps props);
        attr "id" (PString id);
        attr "value"
          (value_or_empty
             (FieldInputProps.value (FieldProps.field fieldProps)));
        attr "aria-invalid" (PBool (isInvalid fieldProps));
        attr "aria-describedby"
          (if isInvalid fieldProps
           then PString (invalidFeedbackId id) else PUndefined)])
    (RenderOptions (default [] (SelectProps.options props))).

(** The tree [BootstrapSelect] returns (lines 295-322). *)
Definition BootstrapSelect (props : SelectProps.t) : VNode :=
  let fieldProps := SelectProps.fieldProps props in
  let name := FieldInputProps.name (FieldProps.field fieldProps) in
  let id := element_id (SelectProps.inputProps props) name in
  let label := select_label props in
  Element "div" None (Some containerElementRef)
    (jsx_props
       [attr "className"
          (if isFloatingLabel props
           then PString "form-floating" else PUndefined)])
    (jsx_children
       [ if negb (isFloatingLabel props) then Some label else None;
         Some (select_element props);
         if isFloatingLabel props then Some label else None;
         if isInvalid fieldProps
         then Some (BootstrapErrorMessage name (invalidFeedbackId id))
         else None ]).

(** ** A mounted field: the component together with its hook *)

(** One render of a mounted [BootstrapInput]: the hook is called with the
    field's name and no [smoothScroll] argument (lines 142-145), the returned
    tree is committed, which points the two refs at the elements that carry
    them (the [<label>] and the [<input>] of the fragment), and the effect
    phase follows.  [formikContext] is what
    [useFormikContext()] yields at this render. *)
Definition BootstrapInput_render (formikContext : FormikProps)
    (props : InputProps.t) (st : HookState)
    : HookState * Completion (list (HelperCall VNode)) * list VNode :=
  let tree := BootstrapInput props in
  let name :=
    FieldInputProps.name (FieldProps.field (InputProps.fieldProps props)) in
  let '(st', outcome) :=
    useFocusInvalidField st
      {| in_name := name;
         in_smoothScroll := None;
         in_formik := formikContext;
         in_fieldRef := ref_current fieldRef tree;
         in_containerElementRef := ref_current containerElementRef tree |}
  in (st', outcome, tree).

(** One render of a mounted [BootstrapSelect] (hook call at lines 270-273);
    the refs are carried by the [<div>] and by the [<select>] under it. *)
Definition BootstrapSelect_render (formikContext : FormikProps)
    (props : SelectProps.t) (st : HookState)
    : HookState * Completion (list (HelperCall VNode)) * VNode :=
  let tree := BootstrapSelect props in
  let name :=
    FieldInputProps.name (FieldProps.field (SelectProps.fieldProps props)) in
  let '(st', outcome) :=
    useFocusInvalidField st
      {| in_name := name;
         in_smoothScroll := None;
         in_formik := formikContext;
         in_fieldRef := ref_current fieldRef (children_of tree);
         in_containerElementRef := ref_current containerElementRef [tree] |}
  in (st', outcome, tree).

(** ** What the spec asks of a rendered field *)

(** The validity display policy, read on the class list of an element:
    before the first submission neither class, afterwards [is-invalid] exactly
    with an error and [is-valid] exactly without one. *)
Definition validity_display_policy (fieldProps : FieldProps.t)
    (classes : list string) : Prop :=
  let count := submitCount (FieldProps.form fieldProps) in
  let error := FieldMetaProps.error (FieldProps.meta fieldProps) in
  (count = 0%Z → ("is-invalid" ∉ classes) ∧ ("is-valid" ∉ classes))
  ∧ ((0 < count)%Z →
     ("is-invalid" ∈ classes ↔ error ≠ None)
     ∧ ("is-valid" ∈ classes ↔ error = None)).

(** The ARIA wiring of a control [el] whose computed id is [id]. *)
Definition aria_wiring (fieldProps : FieldProps.t) (id : string)
    (el : VNode) : Prop :=
  let error := FieldMetaProps.error (FieldProps.meta fieldProps) in
  attribute el "id" = Some (PString id)
  ∧ (attribute el "aria-invalid" = Some (PBool true) ↔ error ≠ None)
  ∧ (attribute el "aria-invalid" = Some (PBool false) ↔ error = None)
  ∧ (error ≠ None →
     attribute el "aria-describedby" = Some (PString (id +:+ "-feedback")))
  ∧ (error = None → attribute el "aria-describedby" = None).

(** ** Sample renders *)

Module Sample.
Definition errors_email : FormikErrors :=
  {| errors_ref := 1; errors_entries := [("email", "Required")] |}.

Definition formik (submitting : bool) (count : Z) : FormikProps :=
  {| submitCount := count; isSubmitting := submitting;
     errors := errors_email |}.

Definition email : FieldInputProps.t :=
  {| FieldInputProps.name := "email";
     FieldInputProps.value := PUndefined;
     FieldInputProps.onChange := 0;
     FieldInputProps.onBlur := 1;
     FieldInputProps.checked := None;
     FieldInputProps.multiple := None |}.

Definition email_field (count : Z) (error : option string) : FieldProps.t :=
  {| FieldProps.field := email;
     FieldProps.meta :=
       {| FieldMetaProps.error := error; FieldMetaProps.touched := true |};
     FieldProps.form := formik false count |}.

(** [<BootstrapInput label="Email" fieldProps={...} inputProps={...} />] *)
Definition input (count : Z) (error : option string)
    (inputProps : option (gmap string PropValue)) : InputProps.t :=
  {| InputProps.fieldProps := email_field count error;
     InputProps.label := Text "Email";
     InputProps.labelProps := None;
     InputProps.inputProps := inputProps |}.

(** [<BootstrapSelect label="Email" fieldProps={...} options={...}
    bootstrapOptions={...} />] *)
Definition select (count : Z) (error : option string)
    (options : option SelectOptions)
    (bootstrapOptions : option BootstrapOptions.t) : SelectProps.t :=
  {| SelectProps.fieldProps := email_field count error;
     SelectProps.label := Text "Email";
     SelectProps.labelProps := None;
     SelectProps.inputProps := None;
     SelectProps.options := options;
     SelectProps.bootstrapOptions := bootstrapOptions |}.

(** One render of the bare hook watching ["email"]. *)
Definition hook_input (submitting : bool) (field container : option nat)
    : HookInput nat :=
  {| in_name := "email";
     in_smoothScroll := None;
     in_formik := formik submitting 1;
     in_fieldRef := field;
     in_containerElementRef := container |}.

Definition leaf (value label : string) : SelectOptionOrGroup.t :=
  SelectOptionOrGroup.Build (Some value) (Some label) None None [].

Definition group (label : option string)
    (options : list SelectOptionOrGroup.t) : SelectOptionOrGroup.t :=
  SelectOptionOrGroup.Build None label None None options.

(** Two levels of groups, one of them empty. *)
Definition fruit : SelectOptions :=
  [ leaf "" "Choose";
    group (Some "Citrus")
      [leaf "lemon" "Lemon"; group None []; leaf "lime" "Lime"];
    leaf "plum" "Plum" ].

Definition page : Viewport nat :=
  {| fully_visible := λ _, false; prefers_reduced_motion := false |}.
End Sample.

(** ** The form wrapper *)

(** The props object of an element; empty for what is not an element. *)
Definition props_of (n : VNode) : gmap string PropValue :=
  match n with Element _ _ _ props _ => props | _ => ∅ end.

(** The values of a Formik configuration: flags, callbacks such as
    [onSubmit] and [validate], and objects such as [initialValues]. *)
Inductive ConfigValue :=
| CUndefined
| CBool (b : bool)
| CFunction (f : nat)
| CObject (o : gmap string PropValue).

(** What Formik hands to its render function, as far as [Form] reads it. *)
Record FormikRenderProps := {
  handleSubmit : nat;
  render_state : FormikProps
}.

(** [props.children]: a render function or a static tree. *)
Inductive FormChildren :=
| ChildrenFunction (f : FormikRenderProps → list VNode)
| ChildrenNodes (nodes : list VNode).

(** [FormikConfig<Values>] after [const { children, ...formikProps } = props]
    (line 328): the children and the rest. *)
Module FormikConfig.
Record t := {
  children : FormChildren;
  formikProps : gmap string ConfigValue
}.
End FormikConfig.

(** A [<Formik>] element: its props and the render function it has as
    child. *)
Record FormikElement := {
  formik_props : gmap string ConfigValue;
  formik_render : FormikRenderProps → VNode
}.

(** [Form] (lines 325-355). *)
Definition Form (props : FormikConfig.t) : FormikElement :=
  {| formik_props :=
       <["validateOnChange" := CBool false]> (FormikConfig.formikProps props);
     formik_render := λ renderProps,
       Element "form" None None
         (jsx_props [attr "onSubmit" (PHandler (handleSubmit renderProps));
                     attr "noValidate" (PBool true)])
         (match FormikConfig.children props with
          | ChildrenFunction children => children renderProps
          | ChildrenNodes children => children
          end) |}.

(** ** More sample renders *)

Module Demo.
(** A node that has [value], [label] and [options] at once. *)
Definition both : SelectOptionOrGroup.t :=
  SelectOptionOrGroup.Build (Some "x") (Some "X") (Some true) None
    [Sample.leaf "y" "Y"].

(** A node with a [value] and no [label]. *)
Definition unlabelled : SelectOptionOrGroup.t :=
  SelectOptionOrGroup.Build (Some "x") None None None [Sample.leaf "y" "Y"].

Definition errors_none : FormikErrors :=
  {| errors_ref := 2; errors_entries := [] |}.

(** Error objects of later validation runs. *)
Definition errors_password_first : FormikErrors :=
  {| errors_ref := 4;
     errors_entries := [("password", "Required"); ("email", "Required")] |}.

Definition errors_email_invalid : FormikErrors :=
  {| errors_ref := 3; errors_entries := [("email", "Invalid address")] |}.

(** One render of the bare hook watching ["email"], its refs at elements 7
    and 8, under the given errors. *)
Definition hook_render (submitting : bool) (errors : FormikErrors)
    : HookInput nat :=
  {| in_name := "email";
     in_smoothScroll := None;
     in_formik := {| submitCount := 1; isSubmitting := submitting;
                     errors := errors |};
     in_fieldRef := Some 7;
     in_containerElementRef := Some 8 |}.

(** A form whose caller asks for validation on change. *)
Definition eager_form : FormikConfig.t :=
  {| FormikConfig.children :=
       ChildrenFunction
         (λ renderProps,
            BootstrapInput (Sample.input
                              (submitCount (render_state renderProps))
                              None None));
     FormikConfig.formikProps :=
       {[ "validateOnChange" := CBool true; "onSubmit" := CFunction 3 ]} |}.
End Demo.

(** * Properties *)

(** ** The focus hook *)

Section FocusHookFacts.
Context {E : Type}.
Implicit Types (history rs : list (HookInput E)) (p r i : HookInput E).
Implicit Types (st : HookState) (c : HelperCall E).

(** The four tests of the effect, as a proposition about one tick. *)
Lemma focus_effect_calls wasSubmitting formikContext name smoothScroll
    (field container : option E) :
  focus_effect wasSubmitting formikContext name smoothScroll field container
  = Normal
      (if bool_decide (wasSubmitting = Some true)
          && negb (isSubmitting formikContext)
          && bool_decide
               (head (Object_keys (errors formikContext)) = Some name)
       then
         match field with
         | Some f => [ {| focusTarget := f;
                          scrollIntoViewTarget := default f container;
                          useSmoothScroll := smoothScroll |} ]
         | None => []
         end
       else []).
Proof. unfold focus_effect. by repeat case_match. Qed.

Lemma focus_effect_fires wasSubmitting formikContext name smoothScroll
    (field container : option E) :
  completed (focus_effect wasSubmitting formikContext name smoothScroll
               field container) ≠ []
  ↔ wasSubmitting = Some true
    ∧ isSubmitting formikContext = false
    ∧ head (Object_keys (errors formikContext)) = Some name
    ∧ field ≠ None.
Proof.
  rewrite focus_effect_calls; cbn [completed]. split.
  - intros Hcalls.
    destruct (bool_decide (wasSubmitting = Some true) && _ && _) eqn:Hc;
      [|done].
    apply andb_prop in Hc as [Hc Hk]. apply andb_prop in Hc as [Hw Hs].
    apply bool_decide_eq_true in Hw, Hk. apply negb_true_iff in Hs.
    by destruct field.
  - intros (-> & -> & -> & Hf).
    rewrite !bool_decide_eq_true_2 by done. by destruct field.
Qed.

Lemma after_renders_nil : after_renders (E := E) [] = mount.
Proof. done. Qed.

Lemma after_renders_snoc history p :
  after_renders (history ++ [p])
  = (useFocusInvalidField (after_renders history) p).1.
Proof. unfold after_renders. by rewrite foldl_snoc. Qed.

(** [usePrevious] returns what it leaves in [prevRef], and leaves the value
    of this render in [curRef]. *)
Lemma usePrevious_refs refs state :
  prevRef (usePrevious refs state).2 = (usePrevious refs state).1
  ∧ curRef (usePrevious refs state).2 = Some state.
Proof. unfold usePrevious. by case_bool_decide. Qed.

(** The step always stores what this render saw. *)
Lemma useFocusInvalidField_state st i :
  (useFocusInvalidField st i).1
  = {| previous_refs :=
         (usePrevious (previous_refs st) (isSubmitting (in_formik i))).2;
       effect_deps :=
         Some {| dep_wasSubmitting := wasSubmitting st i;
                 dep_isSubmitting := isSubmitting (in_formik i);
                 dep_name := in_name i;
                 dep_errors := errors_ref (errors (in_formik i));
                 dep_smoothScroll := default false (in_smoothScroll i) |} |}.
Proof.
  unfold useFocusInvalidField, wasSubmitting.
  destruct (usePrevious _ _). by case_bool_decide.
Qed.

(** The effect phase of a step: skipped when no dependency has changed. *)
Lemma useFocusInvalidField_effect st i :
  (useFocusInvalidField st i).2
  = if bool_decide
         (effect_deps st
          = Some {| dep_wasSubmitting := wasSubmitting st i;
                    dep_isSubmitting := isSubmitting (in_formik i);
                    dep_name := in_name i;
                    dep_errors := errors_ref (errors (in_formik i));
                    dep_smoothScroll :=
                      default false (in_smoothScroll i) |})
    then Normal []
    else focus_effect (wasSubmitting st i) (in_formik i) (in_name i)
           (default false (in_smoothScroll i))
           (in_fieldRef i) (in_containerElementRef i).
Proof.
  unfold useFocusInvalidField, wasSubmitting.
  destruct (usePrevious _ _). cbn. by case_bool_decide.
Qed.

(** Right after a submitting render [wasSubmitting] is [true]. *)
Lemma wasSubmitting_after_submitting st i1 i2 :
  isSubmitting (in_formik i1) = true →
  isSubmitting (in_formik i2) = false →
  wasSubmitting (useFocusInvalidField st i1).1 i2 = Some true.
Proof.
  intros H1 H2. rewrite useFocusInvalidField_state.
  unfold wasSubmitting at 1. cbn [previous_refs]. rewrite H1, H2.
  destruct (usePrevious_refs (previous_refs st) true) as [_ Hcur].
  unfold usePrevious at 1. by rewrite Hcur.
Qed.

(** A render with the same [isSubmitting] as the one before it gets the same
    [wasSubmitting]. *)
Lemma wasSubmitting_unchanged st i1 i2 :
  isSubmitting (in_formik i1) = isSubmitting (in_formik i2) →
  wasSubmitting (useFocusInvalidField st i1).1 i2 = wasSubmitting st i1.
Proof.
  intros Hsame. rewrite useFocusInvalidField_state.
  unfold wasSubmitting at 1. cbn [previous_refs]. rewrite <-Hsame.
  destruct (usePrevious_refs (previous_refs st)
              (isSubmitting (in_formik i1))) as [Hprev Hcur].
  unfold usePrevious at 1. by rewrite Hcur, bool_decide_eq_true_2.
Qed.

(** A tick makes the calls of the effect body, or none when the dependency
    array holds the effect back. *)
Lemma tick_cases history r :
  tick history r = Normal []
  ∨ tick history r
    = focus_effect (wasSubmitting (after_renders history) r)
        (in_formik r) (in_name r) (default false (in_smoothScroll r))
        (in_fieldRef r) (in_containerElementRef r).
Proof.
  unfold tick. rewrite useFocusInvalidField_effect. case_bool_decide; auto.
Qed.

Lemma tick_normal history r :
  tick history r = Normal (completed (tick history r)).
Proof.
  destruct (tick_cases history r) as [->| ->]; [done|].
  by rewrite focus_effect_calls.
Qed.

(** The refs after a run of renders: [curRef] holds the value of the last
    render, and [prevRef] the other truth value if some render of the run
    had it, and nothing if none had. *)
Lemma previous_refs_after history p :
  curRef (previous_refs (after_renders (history ++ [p])))
  = Some (isSubmitting (in_formik p))
  ∧ ((prevRef (previous_refs (after_renders (history ++ [p])))
      = Some (negb (isSubmitting (in_formik p)))
      ∧ ∃ q, q ∈ history
             ∧ isSubmitting (in_formik q) = negb (isSubmitting (in_formik p)))
     ∨ (prevRef (previous_refs (after_renders (history ++ [p]))) = None
        ∧ Forall (λ q, isSubmitting (in_formik q)
                       = isSubmitting (in_formik p)) history)).
Proof.
  revert p. induction history as [|p0 history IH] using rev_ind; intros p.
  - rewrite after_renders_snoc, useFocusInvalidField_state. cbn.
    split; [done|]. right. split; [done|constructor].
  - rewrite after_renders_snoc, useFocusInvalidField_state.
    cbn [previous_refs].
    destruct (IH p0) as [Hcur Hprev]. unfold usePrevious. rewrite Hcur.
    case_bool_decide as Hsame; cbn [snd curRef prevRef].
    + injection Hsame as Hsame. rewrite <-Hsame. split; [done|].
      destruct Hprev as [(Hp & q & Hq & Hqs)|(Hp & Hall)].
      * left. split; [done|]. exists q. split; [|done].
        apply elem_of_app. by left.
      * right. split; [done|]. apply Forall_app. split; [done|].
        by repeat constructor.
    + split; [done|]. left.
      assert (Hneg : isSubmitting (in_formik p0)
                     = negb (isSubmitting (in_formik p))).
      { destruct (isSubmitting (in_formik p0)),
          (isSubmitting (in_formik p)); done. }
      split; [by rewrite Hneg|]. exists p0. split; [|done].
      apply elem_of_app. right. apply list_elem_of_here.
Qed.

(** At a render that is not submitting, [wasSubmitting] is [true] exactly
    when some earlier render of the instance was submitting. *)
Lemma wasSubmitting_true_iff history r :
  isSubmitting (in_formik r) = false →
  wasSubmitting (after_renders history) r = Some true
  ↔ ∃ q, q ∈ history ∧ isSubmitting (in_formik q) = true.
Proof.
  intros Hr. destruct history as [|p history _] using rev_ind.
  - split; [by unfold wasSubmitting; rewrite Hr|].
    by intros (q & ?%elem_of_nil & _).
  - destruct (previous_refs_after history p) as [Hcur Hprev].
    unfold wasSubmitting, usePrevious. rewrite Hcur, Hr.
    destruct (isSubmitting (in_formik p)) eqn:Hp.
    + rewrite bool_decide_eq_false_2 by done. cbn. split; [|done].
      intros _. exists p. split; [|done].
      apply elem_of_app. right. apply list_elem_of_here.
    + rewrite bool_decide_eq_true_2 by done. cbn.
      destruct Hprev as [(-> & q & Hq & Hqs)|(-> & Hall)].
      * split; [|done]. intros _. exists q. split; [|done].
        apply elem_of_app. by left.
      * split; [done|]. intros (q & Hq & Hqs).
        apply elem_of_app in Hq as [Hq|Hq%list_elem_of_singleton].
        -- rewrite Forall_forall in Hall. rewrite (Hall q Hq) in Hqs. done.
        -- subst q. congruence.
Qed.

(** The dependencies stored by the last render. *)
Lemma effect_deps_after history p :
  effect_deps (after_renders (history ++ [p]))
  = Some {| dep_wasSubmitting := wasSubmitting (after_renders history) p;
            dep_isSubmitting := isSubmitting (in_formik p);
            dep_name := in_name p;
            dep_errors := errors_ref (errors (in_formik p));
            dep_smoothScroll := default false (in_smoothScroll p) |}.
Proof. by rewrite after_renders_snoc, useFocusInvalidField_state. Qed.

(** A render that repeats the [isSubmitting], the name, the errors object
    and the [smoothScroll] of the render before it makes no call: the
    dependency array holds the effect back. *)
Lemma tick_unchanged history p r :
  isSubmitting (in_formik r) = isSubmitting (in_formik p) →
  in_name r = in_name p →
  errors_ref (errors (in_formik r)) = errors_ref (errors (in_formik p)) →
  default false (in_smoothScroll r) = default false (in_smoothScroll p) →
  tick (history ++ [p]) r = Normal [].
Proof.
  intros Hs Hn He Hm. unfold tick.
  rewrite useFocusInvalidField_effect, effect_deps_after.
  rewrite after_renders_snoc, wasSubmitting_unchanged by done.
  rewrite Hs, Hn, He, Hm. by rewrite bool_decide_eq_true_2.
Qed.
End FocusHookFacts.

Section FocusHookClaims.
Context {E : Type}.
Implicit Types (history rs : list (HookInput E)) (p r i : HookInput E).
Implicit Types (c : HelperCall E) (page : Viewport E).

Lemma concat_replicate_nil {A} n : concat (replicate n (@nil A)) = [].
Proof. induction n; [done|]. by cbn. Qed.

Lemma helper_focus_moves page c :
  focus_moves (focusAndScrollIntoViewIfRequired page c) = 1.
Proof.
  unfold focus_moves, focusAndScrollIntoViewIfRequired.
  rewrite filter_cons_True by done.
  case_match; [done|]. by rewrite filter_cons_False.
Qed.

Lemma helper_scroll_actions page c :
  scroll_actions (focusAndScrollIntoViewIfRequired page c) ≤ 1.
Proof.
  unfold scroll_actions, focusAndScrollIntoViewIfRequired.
  rewrite filter_cons_False by done.
  case_match; [cbn; lia|]. rewrite filter_cons_True by done. cbn; lia.
Qed.

(** C3.  With the focus-target ref null at a tick, whatever else holds, the
    hook calls the helper not at all, so the page sees neither a focus move
    nor a scroll, and the effect ends normally: nothing is thrown. *)
Theorem absent_focus_target_is_noop page history r :
  in_fieldRef r = None →
  tick history r = Normal []
  ∧ page_actions page [completed (tick history r)] = []
  ∧ (∀ wasSubmitting,
       focus_effect wasSubmitting (in_formik r) (in_name r)
         (default false (in_smoothScroll r)) (in_fieldRef r)
         (in_containerElementRef r) = Normal []).
Proof.
  intros Hf.
  assert (Heff : ∀ wasSubmitting,
       focus_effect wasSubmitting (in_formik r) (in_name r)
         (default false (in_smoothScroll r)) (in_fieldRef r)
         (in_containerElementRef r) = Normal []).
  { intros w. rewrite focus_effect_calls, Hf. by case_match. }
  assert (Htick : tick history r = Normal []).
  { destruct (tick_cases history r) as [->| ->]; [done|apply Heff]. }
  by rewrite Htick.
Qed.

(** C4.  Whenever the hook calls the helper, the focus argument is the
    element in the focus-target ref, and the scroll argument is the element
    in the container ref when that ref is set and the focus target itself
    when it is null. *)
Theorem helper_targets history r c :
  c ∈ completed (tick history r) →
  ∃ f, in_fieldRef r = Some f
       ∧ focusTarget c = f
       ∧ (∀ k, in_containerElementRef r = Some k → scrollIntoViewTarget c = k)
       ∧ (in_containerElementRef r = None → scrollIntoViewTarget c = f).
Proof.
  intros Hc. destruct (tick_cases history r) as [Heq|Heq];
    rewrite Heq in Hc; [by apply elem_of_nil in Hc|].
  rewrite focus_effect_calls in Hc. cbn [completed] in Hc.
  destruct (_ && _ && _); [|by apply elem_of_nil in Hc].
  destruct (in_fieldRef r) as [f|]; [|by apply elem_of_nil in Hc].
  apply list_elem_of_singleton in Hc as ->. exists f. cbn.
  split; [done|]. split; [done|]. split.
  - by intros k ->.
  - by intros ->.
Qed.
End FocusHookClaims.

(** C1.  The claim fails on the code in its "only if" part.  The hook
    watches ["email"]; the form is submitting, then idle with ["password"]
    as first error, then idle again with a new errors object whose first
    key is ["email"] (the user has corrected the password and left the
    field).  The render before the third one had [isSubmitting] false, and
    yet the third render calls the helper: [wasSubmitting] is still [true],
    since [usePrevious] keeps the last value that differed. *)
Lemma helper_invoked_after_idle_render :
  isSubmitting
    (in_formik (Demo.hook_render false Demo.errors_password_first)) = false
  ∧ ticks []
      [ Demo.hook_render true Demo.errors_password_first;
        Demo.hook_render false Demo.errors_password_first;
        Demo.hook_render false Sample.errors_email ]
    = [ []; [];
        [ {| focusTarget := 7; scrollIntoViewTarget := 8;
             useSmoothScroll := false |} ] ].
Proof. split; [reflexivity|]. vm_compute. reflexivity. Qed.

(** C2.  The claim fails on the code in its second half.  After one failed
    submission (a submitting render, then an idle one with ["email"] as
    first error) the helper is called once; a later render of the same idle
    form with a new errors object that still has ["email"] first (a
    validation on blur that changed the message) calls it again: two focus
    moves for one submission-completion transition. *)
Lemma focus_moves_again_without_submission :
  ticks []
    [ Demo.hook_render true Sample.errors_email;
      Demo.hook_render false Sample.errors_email;
      Demo.hook_render false Demo.errors_email_invalid ]
  = [ [];
      [ {| focusTarget := 7; scrollIntoViewTarget := 8;
           useSmoothScroll := false |} ];
      [ {| focusTarget := 7; scrollIntoViewTarget := 8;
           useSmoothScroll := false |} ] ]
  ∧ focus_moves
      (page_actions Sample.page
         (ticks []
            [ Demo.hook_render true Sample.errors_email;
              Demo.hook_render false Sample.errors_email;
              Demo.hook_render false Demo.errors_email_invalid ]))
    = 2.
Proof. split; vm_compute; reflexivity. Qed.

(** ** The field components *)

(** *** Props objects *)

Lemma jsx_props_snoc entries e :
  jsx_props (entries ++ [e])
  = match e with
    | attr k v => <[k:=v]> (jsx_props entries)
    | spread o => o ∪ jsx_props entries
    end.
Proof. unfold jsx_props. by rewrite foldl_snoc. Qed.

(** An attribute written after every spread is what the element gets. *)
Lemma jsx_props_last entries k v :
  jsx_props (entries ++ [attr k v]) !! k = Some v.
Proof. by rewrite jsx_props_snoc, lookup_insert_eq. Qed.

(** An attribute written before a spread is only a default. *)
Lemma jsx_props_spread_wins entries o k v :
  o !! k = Some v → jsx_props (entries ++ [spread o]) !! k = Some v.
Proof. intros Hk. rewrite jsx_props_snoc. by apply lookup_union_Some_l. Qed.

Lemma jsx_props_spread_miss entries o k :
  o !! k = None →
  jsx_props (entries ++ [spread o]) !! k = jsx_props entries !! k.
Proof. intros Hk. rewrite jsx_props_snoc. by apply lookup_union_r. Qed.

(** Unfolds a props object given by its entries and looks up a key in it. *)
Ltac jsx_lookup :=
  unfold jsx_props; cbn [foldl app];
  repeat first
    [ rewrite lookup_insert_eq
    | rewrite lookup_insert_ne by done
    | rewrite lookup_empty ].

Lemma field_object_no_className f :
  FieldInputProps.object f !! "className" = None.
Proof.
  unfold FieldInputProps.object.
  destruct (FieldInputProps.checked f), (FieldInputProps.multiple f);
    by jsx_lookup.
Qed.

Lemma spread_optional_miss (o : option (gmap string PropValue)) k :
  o ≫= (.!! k) = None → default ∅ o !! k = None.
Proof. destruct o as [m|]; [done|]. intros _. apply lookup_empty. Qed.

(** *** Class lists *)

Lemma validationClass_cases fieldProps :
  validationClass fieldProps
  = if bool_decide (0 < submitCount (FieldProps.form fieldProps))%Z
    then if FieldMetaProps.error (FieldProps.meta fieldProps) is Some _
         then " is-invalid" else " is-valid"
    else "".
Proof.
  unfold validationClass, isSubmitted, isInvalid.
  by destruct (FieldMetaProps.error (FieldProps.meta fieldProps)).
Qed.

(** The [className] the [<input>] shows when [inputProps] brings none. *)
Lemma input_element_className props :
  InputProps.inputProps props ≫= (.!! "className") = None →
  attribute (input_element props) "className"
  = Some (PString (input_className props)).
Proof.
  intros Hnone. unfold input_element, attribute, spread_optional.
  jsx_lookup.
  rewrite lookup_union_r by by apply spread_optional_miss.
  rewrite lookup_union_r by apply field_object_no_className.
  by rewrite lookup_insert_eq.
Qed.

Lemma select_element_className props :
  SelectProps.inputProps props ≫= (.!! "className") = None →
  attribute (select_element props) "className"
  = Some (PString (select_className props)).
Proof.
  intros Hnone. unfold select_element, attribute, spread_optional.
  jsx_lookup.
  rewrite lookup_union_r by by apply spread_optional_miss.
  rewrite lookup_union_r by apply field_object_no_className.
  by rewrite lookup_insert_eq.
Qed.

(** The [className] that [inputProps] brings replaces the computed one. *)
Lemma input_element_className_override props v :
  InputProps.inputProps props ≫= (.!! "className") = Some v →
  attribute (input_element props) "className"
  = if v is PUndefined then None else Some v.
Proof.
  intros Hsome. unfold input_element, attribute, spread_optional.
  jsx_lookup.
  destruct (InputProps.inputProps props) as [o|]; [|done]. cbn in Hsome |- *.
  rewrite (lookup_union_Some_l _ _ _ _ Hsome). by destruct v.
Qed.

Ltac compute_class_tokens :=
  repeat match goal with
    | |- context [class_tokens ?s] =>
        let l := eval vm_compute in (class_tokens s) in
        change (class_tokens s) with l
    end.

(** The policy holds of the class string the components compute, whatever
    the structural class in front. *)
Lemma validity_display_policy_computed fieldProps base :
  base ∈ ["form-control"; "form-check-input"; "form-select"] →
  validity_display_policy fieldProps
    (class_tokens (base +:+ validationClass fieldProps)).
Proof.
  intros Hbase. rewrite validationClass_cases. unfold validity_display_policy.
  destruct (FieldMetaProps.error (FieldProps.meta fieldProps)) as [msg|];
    case_bool_decide as Hcount;
    repeat (apply elem_of_cons in Hbase as [->|Hbase]);
    try (by apply elem_of_nil in Hbase);
    compute_class_tokens;
    (split; [intros Hzero|intros Hpos]; try lia);
    rewrite ?elem_of_cons, ?elem_of_nil; intuition congruence.
Qed.

(** *** Example renders *)

Example input_invalid_after_submit :
  classList (input_element (Sample.input 1 (Some "Required") None))
  = ["form-control"; "is-invalid"].
Proof. vm_compute. reflexivity. Qed.

Example input_untouched_before_submit :
  classList (input_element (Sample.input 0 (Some "Required") None))
  = ["form-control"].
Proof. vm_compute. reflexivity. Qed.

Example input_valid_after_submit :
  classList (input_element (Sample.input 2 None None)) 
  = ["form-control"; "is-valid"].
Proof. vm_compute. reflexivity. Qed.

(** *** Validity classes *)

Lemma classList_of_className n s :
  attribute n "className" = Some (PString s) → classList n = class_tokens s.
Proof. unfold classList. by intros ->. Qed.

(** C5, as stated, fails: after a submission with an error on the field, an
    [<input>] whose [inputProps] carries a [className] of its own shows that
    class alone, without [is-invalid]: the spread at line 179 comes after the
    computed [className] of lines 174-177 and replaces it. *)
Lemma validity_class_replaced_by_inputProps :
  classList
    (input_element
       (Sample.input 1 (Some "Required")
          (Some {[ "className" := PString "custom" ]})))
  = ["custom"]
  ∧ ¬ validity_display_policy
        (InputProps.fieldProps
           (Sample.input 1 (Some "Required")
              (Some {[ "className" := PString "custom" ]})))
        (classList
           (input_element
              (Sample.input 1 (Some "Required")
                 (Some {[ "className" := PString "custom" ]})))).
Proof.
  split; [by vm_compute|].
  intros [_ Hafter]. destruct Hafter as [Hinvalid _]; [done|].
  assert (Hin : "is-invalid" ∈ ["custom"]) by by apply Hinvalid.
  apply list_elem_of_singleton in Hin. discriminate Hin.
Qed.

(** C5, amended.  On every render of either field the class the component
    appends is empty while [submitCount] is 0, and for a positive
    [submitCount] it is [is-invalid] exactly when an error is present and
    [is-valid] exactly when none is; and whenever [inputProps] carries no
    [className] of its own, the class list of the rendered [<input>] or
    [<select>] follows that policy. *)
Theorem validity_class_unless_replaced (input : InputProps.t)
    (select : SelectProps.t) :
  (∀ fieldProps,
     let count := submitCount (FieldProps.form fieldProps) in
     let error := FieldMetaProps.error (FieldProps.meta fieldProps) in
     (count = 0%Z → validationClass fieldProps = "")
     ∧ ((0 < count)%Z →
        (validationClass fieldProps = " is-invalid" ↔ error ≠ None)
        ∧ (validationClass fieldProps = " is-valid" ↔ error = None)))
  ∧ (InputProps.inputProps input ≫= (.!! "className") = None →
     validity_display_policy (InputProps.fieldProps input)
       (classList (input_element input)))
  ∧ (SelectProps.inputProps select ≫= (.!! "className") = None →
     validity_display_policy (SelectProps.fieldProps select)
       (classList (select_element select))).
Proof.
  split; [|split].
  - intros fieldProps count error. subst count error.
    rewrite validationClass_cases.
    destruct (FieldMetaProps.error (FieldProps.meta fieldProps)) as [msg|];
      case_bool_decide; (split; [intros ?|intros ?]; try lia);
      intuition congruence.
  - intros Hnone.
    rewrite (classList_of_className _ _ (input_element_className _ Hnone)).
    unfold input_className.
    apply validity_display_policy_computed.
    destruct (isCheckboxOrRadio _); rewrite !elem_of_cons; auto.
  - intros Hnone.
    rewrite (classList_of_className _ _ (select_element_className _ Hnone)).
    unfold select_className.
    apply validity_display_policy_computed.
    rewrite !elem_of_cons; auto.
Qed.

(** *** ARIA attributes *)

Lemma aria_wiring_of_props fieldProps id el tag key rf entries children :
  el = Element tag key rf
         (jsx_props
            (entries ++
             [attr "id" (PString id);
              attr "value"
                (value_or_empty
                   (FieldInputProps.value (FieldProps.field fieldProps)));
              attr "aria-invalid" (PBool (isInvalid fieldProps));
              attr "aria-describedby"
                (if isInvalid fieldProps
                 then PString (invalidFeedbackId id) else PUndefined)]))
         children →
  aria_wiring fieldProps id el.
Proof.
  intros ->. unfold aria_wiring, attribute, isInvalid, invalidFeedbackId.
  replace (jsx_props (entries ++ _)) with
    (<["aria-describedby" :=
         if negb (bool_decide
                    (FieldMetaProps.error (FieldProps.meta fieldProps) = None))
         then PString (id +:+ "-feedback") else PUndefined]>
       (<["aria-invalid" :=
            PBool (negb (bool_decide
                     (FieldMetaProps.error (FieldProps.meta fieldProps)
                      = None)))]>
          (<["value" :=
               value_or_empty
                 (FieldInputProps.value (FieldProps.field fieldProps))]>
             (<["id" := PString id]> (jsx_props entries))))).
  2:{ unfold jsx_props. by rewrite foldl_app. }
  rewrite lookup_insert_eq.
  rewrite !(lookup_insert_ne _ "aria-describedby") by done.
  rewrite lookup_insert_eq.
  rewrite !(lookup_insert_ne _ "aria-invalid") by done.
  rewrite !(lookup_insert_ne _ "value") by done.
  rewrite lookup_insert_eq.
  destruct (FieldMetaProps.error (FieldProps.meta fieldProps)) as [msg|];
    cbn; intuition congruence.
Qed.

(** C6.  On every render of either field, whatever the submit count and
    whatever [inputProps] carries, [aria-invalid] is [true] exactly when the
    field's error is present (and [false] otherwise), and [aria-describedby]
    is the feedback id, the element's [id] followed by [-feedback], when an
    error is present and is not set when none is. *)
Theorem aria_attributes_follow_error (input : InputProps.t)
    (select : SelectProps.t) :
  aria_wiring (InputProps.fieldProps input)
    (element_id (InputProps.inputProps input)
       (FieldInputProps.name
          (FieldProps.field (InputProps.fieldProps input))))
    (input_element input)
  ∧ aria_wiring (SelectProps.fieldProps select)
      (element_id (SelectProps.inputProps select)
         (FieldInputProps.name
            (FieldProps.field (SelectProps.fieldProps select))))
      (select_element select).
Proof.
  split.
  - eapply (aria_wiring_of_props _ _ _ _ _ _ [_; _; _]). reflexivity.
  - eapply (aria_wiring_of_props _ _ _ _ _ _ [_; _; _]). reflexivity.
Qed.

(** *** Layout of the select field *)

Lemma isFloatingLabel_true props :
  isFloatingLabel props = true
  ↔ SelectProps.bootstrapOptions props ≫= BootstrapOptions.floatingLabel
    = Some true.
Proof.
  unfold isFloatingLabel.
  destruct (SelectProps.bootstrapOptions props ≫= _) as [[]|]; cbn;
    intuition congruence.
Qed.

Lemma isInvalid_true fieldProps :
  isInvalid fieldProps = true
  ↔ FieldMetaProps.error (FieldProps.meta fieldProps) ≠ None.
Proof.
  unfold isInvalid.
  destruct (FieldMetaProps.error (FieldProps.meta fieldProps)); cbn;
    intuition congruence.
Qed.

(** The children of the [<div>], by the two flags. *)
Lemma BootstrapSelect_children props :
  children_of (BootstrapSelect props)
  = (if isFloatingLabel props
     then [select_element props; select_label props]
     else [select_label props; select_element props])
    ++ (if isInvalid (SelectProps.fieldProps props)
        then [BootstrapErrorMessage
                (FieldInputProps.name
                   (FieldProps.field (SelectProps.fieldProps props)))
                (invalidFeedbackId
                   (element_id (SelectProps.inputProps props)
                      (FieldInputProps.name
                         (FieldProps.field (SelectProps.fieldProps props)))))]
        else []).
Proof.
  unfold BootstrapSelect.
  by destruct (isFloatingLabel props),
       (isInvalid (SelectProps.fieldProps props)).
Qed.

(** C8.  On every render of the select field: with the floating-label option
    enabled the [<div>] container carries the class [form-floating] and its
    children are the [<select>] and then the [<label>]; with the option off,
    [undefined] or missing the container has no class and its children are
    the [<label>] and then the [<select>].  Either way only the error message
    may follow. *)
Theorem floating_label_layout (props : SelectProps.t) :
  let floating :=
    SelectProps.bootstrapOptions props ≫= BootstrapOptions.floatingLabel in
  tag_of (BootstrapSelect props) = Some "div"
  ∧ tag_of (select_element props) = Some "select"
  ∧ tag_of (select_label props) = Some "label"
  ∧ (floating = Some true →
     classList (BootstrapSelect props) = ["form-floating"]
     ∧ ∃ rest, children_of (BootstrapSelect props)
               = select_element props :: select_label props :: rest
               ∧ Forall (λ n, is_error_message n = true) rest)
  ∧ (floating ≠ Some true →
     attribute (BootstrapSelect props) "className" = None
     ∧ ∃ rest, children_of (BootstrapSelect props)
               = select_label props :: select_element props :: rest
               ∧ Forall (λ n, is_error_message n = true) rest).
Proof.
  intros floating. subst floating.
  do 3 (split; [done|]).
  rewrite <-isFloatingLabel_true, BootstrapSelect_children.
  split; intros Hfloat.
  - split.
    + unfold classList, BootstrapSelect, attribute. jsx_lookup.
      by rewrite Hfloat.
    + rewrite Hfloat. eexists. split; [reflexivity|].
      destruct (isInvalid _); by repeat constructor.
  - apply not_true_is_false in Hfloat. split.
    + unfold BootstrapSelect, attribute. jsx_lookup. by rewrite Hfloat.
    + rewrite Hfloat. eexists. split; [reflexivity|].
      destruct (isInvalid _); by repeat constructor.
Qed.

(** *** Error messages *)

(** C9.  [BootstrapInput] mounts its [BootstrapErrorMessage] on every render,
    error or not; [BootstrapSelect] mounts one exactly when the field has an
    error, and without an error none of its children is an error message. *)
Theorem error_message_mounting (input : InputProps.t)
    (select : SelectProps.t) :
  let input_name :=
    FieldInputProps.name (FieldProps.field (InputProps.fieldProps input)) in
  let select_name :=
    FieldInputProps.name (FieldProps.field (SelectProps.fieldProps select)) in
  let select_error :=
    FieldMetaProps.error (FieldProps.meta (SelectProps.fieldProps select)) in
  BootstrapErrorMessage input_name
    (invalidFeedbackId (element_id (InputProps.inputProps input) input_name))
  ∈ BootstrapInput input
  ∧ (BootstrapErrorMessage select_name
       (invalidFeedbackId
          (element_id (SelectProps.inputProps select) select_name))
     ∈ children_of (BootstrapSelect select)
     ↔ select_error ≠ None)
  ∧ (select_error = None →
     ∀ n, n ∈ children_of (BootstrapSelect select) →
          is_error_message n = false).
Proof.
  intros input_name select_name select_error.
  subst input_name select_name select_error.
  rewrite <-isInvalid_true, BootstrapSelect_children.
  split; [|split].
  - unfold BootstrapInput. rewrite !elem_of_cons. auto.
  - destruct (isInvalid (SelectProps.fieldProps select)).
    + split; [done|]. intros _. rewrite elem_of_app, list_elem_of_singleton.
      by right.
    + split; [|done]. rewrite app_nil_r.
      destruct (isFloatingLabel select);
        rewrite !elem_of_cons, elem_of_nil; intros [H|[H|[]]];
        discriminate H.
  - intros Hnone n.
    assert (isInvalid (SelectProps.fieldProps select) = false) as ->.
    { apply not_true_iff_false. rewrite isInvalid_true. by intros []. }
    rewrite app_nil_r.
    destruct (isFloatingLabel select);
      rewrite !elem_of_cons, elem_of_nil; by intros [->|[->|[]]].
Qed.

(** *** The mounted fields and the hook *)

Section MountedFields.
Context {E : Type}.

(** Whatever the state of the instance, the calls of one step carry the
    hook's own arguments. *)
Lemma useFocusInvalidField_calls (st : HookState) (i : HookInput E)
    (c : HelperCall E) :
  c ∈ completed (useFocusInvalidField st i).2 →
  useSmoothScroll c = default false (in_smoothScroll i)
  ∧ in_fieldRef i = Some (focusTarget c)
  ∧ scrollIntoViewTarget c
    = default (focusTarget c) (in_containerElementRef i).
Proof.
  rewrite useFocusInvalidField_effect.
  case_bool_decide; cbn; [by intros ?%elem_of_nil|].
  rewrite focus_effect_calls. cbn [completed].
  destruct (_ && _ && _); [|by intros ?%elem_of_nil].
  destruct (in_fieldRef i) as [f|]; [|by intros ?%elem_of_nil].
  by intros ->%list_elem_of_singleton.
Qed.
End MountedFields.

(** The refs of a committed [BootstrapInput] hold its [<input>] and its
    [<label>]; those of a [BootstrapSelect] its [<select>] and its [<div>]. *)
Lemma BootstrapInput_refs props :
  ref_current fieldRef (BootstrapInput props) = Some (input_element props)
  ∧ ref_current containerElementRef (BootstrapInput props)
    = Some (input_label props).
Proof. done. Qed.

Lemma BootstrapSelect_refs props :
  ref_current fieldRef (children_of (BootstrapSelect props))
  = Some (select_element props)
  ∧ ref_current containerElementRef [BootstrapSelect props]
    = Some (BootstrapSelect props).
Proof.
  split; [|done]. rewrite BootstrapSelect_children.
  by destruct (isFloatingLabel props).
Qed.

(** C10.  On every render of a mounted [BootstrapInput] or [BootstrapSelect],
    from whatever state of the hook instance, each call made to the helper
    passes [false] as its smooth-scroll flag: the components give the hook no
    [smoothScroll] argument and the parameter defaults to [false]. *)
Theorem field_components_never_smooth (formikContext : FormikProps)
    (input : InputProps.t) (select : SelectProps.t) (st : HookState)
    (c : HelperCall VNode) :
  c ∈ completed (BootstrapInput_render formikContext input st).1.2
  ∨ c ∈ completed (BootstrapSelect_render formikContext select st).1.2 →
  useSmoothScroll c = false.
Proof.
  unfold BootstrapInput_render, BootstrapSelect_render.
  intros [Hc|Hc];
    destruct (useFocusInvalidField _ _) as [st' outcome] eqn:Hstep;
    cbn in Hc; replace outcome with (st', outcome).2 in Hc by done;
    rewrite <-Hstep in Hc;
    by apply useFocusInvalidField_calls in Hc as [-> _].
Qed.

(** The calls of a mounted field focus its control and scroll to its label
    (input) or to its wrapping [<div>] (select). *)
Lemma field_components_targets (formikContext : FormikProps)
    (input : InputProps.t) (select : SelectProps.t) (st : HookState)
    (c : HelperCall VNode) :
  (c ∈ completed (BootstrapInput_render formikContext input st).1.2 →
   focusTarget c = input_element input
   ∧ scrollIntoViewTarget c = input_label input)
  ∧ (c ∈ completed (BootstrapSelect_render formikContext select st).1.2 →
     focusTarget c = select_element select
     ∧ scrollIntoViewTarget c = BootstrapSelect select).
Proof.
  unfold BootstrapInput_render, BootstrapSelect_render.
  split; intros Hc;
    destruct (useFocusInvalidField _ _) as [st' outcome] eqn:Hstep;
    cbn in Hc; replace outcome with (st', outcome).2 in Hc by done;
    rewrite <-Hstep in Hc;
    apply useFocusInvalidField_calls in Hc as (_ & Hf & Hs);
    cbn [in_fieldRef in_containerElementRef] in Hf, Hs.
  - destruct (BootstrapInput_refs input) as [Hf' Hc'].
    rewrite Hf' in Hf. rewrite Hc' in Hs. by injection Hf as <-.
  - destruct (BootstrapSelect_refs select) as [Hf' Hc'].
    rewrite Hf' in Hf. rewrite Hc' in Hs. by injection Hf as <-.
Qed.

(** ** The option renderer *)

(** Structural induction on option trees, with the hypothesis on every
    member of [options]. *)
Lemma SelectOptionOrGroup_ind (P : SelectOptionOrGroup.t → Prop) :
  (∀ value label disabled key options,
      Forall P options →
      P (SelectOptionOrGroup.Build value label disabled key options)) →
  ∀ o, P o.
Proof.
  intros step. fix IH 1. intros [value label disabled key options].
  apply step. induction options as [|c options IHoptions]; constructor.
  - apply IH.
  - apply IHoptions.
Qed.

Lemma isSelectOption_true o :
  isSelectOption o = true
  ↔ SelectOptionOrGroup.value o ≠ None ∧ SelectOptionOrGroup.label o ≠ None.
Proof.
  unfold isSelectOption.
  destruct (SelectOptionOrGroup.value o), (SelectOptionOrGroup.label o); cbn;
    intuition congruence.
Qed.

Lemma RenderOptions_item_tag o :
  tag_of (RenderOptions_item o)
  = Some (if isSelectOption o then "option" else "optgroup").
Proof. destruct o; cbn. by destruct (isSelectOption _). Qed.

Lemma RenderOptions_item_group o :
  isSelectOption o = false →
  children_of (RenderOptions_item o)
  = RenderOptions (SelectOptionOrGroup.options o).
Proof. intros Hgroup. destruct o; cbn in *. by rewrite Hgroup. Qed.

(** An option element has no element below it: its only child is text. *)
Lemma RenderOptions_item_leaf o here :
  isSelectOption o = true →
  element_preorder here (RenderOptions_item o)
  = [(here, RenderOptions_item o)].
Proof.
  intros Hleaf. destruct o as [value label disabled key options].
  cbn in *. rewrite Hleaf. cbn. by destruct label.
Qed.

Lemma concat_indexed_ext {A B} (f g : nat → A → list B) start l :
  Forall (λ x, ∀ i, f i x = g i x) l →
  concat_indexed f start l = concat_indexed g start l.
Proof.
  intros Hl. revert start.
  induction Hl as [|x l Hx _ IH]; intros start; cbn; [done|].
  by rewrite Hx, IH.
Qed.

Lemma concat_indexed_fmap {A B C} (f : nat → B → list C) (g : A → B)
    start l :
  concat_indexed f start (g <$> l)
  = concat_indexed (λ i x, f i (g x)) start l.
Proof.
  revert start. induction l as [|x l IH]; intros start; cbn; by f_equal.
Qed.

Lemma fmap_concat_indexed {A B C} (f : nat → A → list B) (g : B → C)
    start l :
  g <$> concat_indexed f start l
  = concat_indexed (λ i x, g <$> f i x) start l.
Proof.
  revert start. induction l as [|x l IH]; intros start; cbn; [done|].
  by rewrite fmap_app, IH.
Qed.

(** The document order of the rendered elements is the pre-order of the
    option nodes, position by position. *)
Lemma element_preorder_RenderOptions_item o here :
  element_preorder here (RenderOptions_item o)
  = prod_map id RenderOptions_item <$> option_preorder here o.
Proof.
  revert here. induction o as [value label disabled key options IH]
    using SelectOptionOrGroup_ind.
  intros here.
  destruct (isSelectOption
              (SelectOptionOrGroup.Build value label disabled key options))
    eqn:Hkind.
  - rewrite RenderOptions_item_leaf by done. cbn. by rewrite Hkind.
  - cbn. rewrite Hkind. cbn. f_equal.
    change (map RenderOptions_item options)
      with (RenderOptions_item <$> options).
    rewrite concat_indexed_fmap, fmap_concat_indexed.
    apply concat_indexed_ext.
    eapply Forall_impl; [exact IH|]. intros child Hchild i. apply Hchild.
Qed.

Lemma element_positions_RenderOptions options :
  element_positions (RenderOptions options)
  = prod_map id RenderOptions_item <$> option_positions options.
Proof.
  unfold element_positions, option_positions, RenderOptions.
  change (map RenderOptions_item options)
    with (RenderOptions_item <$> options).
  rewrite concat_indexed_fmap, fmap_concat_indexed.
  apply concat_indexed_ext, Forall_forall. intros o _ i.
  apply element_preorder_RenderOptions_item.
Qed.

Lemma elem_of_concat_indexed {A B} (f : nat → A → list B) start l y :
  y ∈ concat_indexed f start l
  ↔ ∃ j x, l !! j = Some x ∧ y ∈ f (start + j) x.
Proof.
  revert start. induction l as [|x l IH]; intros start; cbn.
  - rewrite elem_of_nil. split; [done|]. by intros (j & x & ? & _).
  - rewrite elem_of_app, IH. split.
    + intros [Hy|(j & z & Hj & Hy)].
      * exists 0, x. by rewrite Nat.add_0_r.
      * exists (S j), z. by rewrite Nat.add_succ_r.
    + intros ([|j] & z & Hj & Hy); cbn in Hj.
      * left. injection Hj as <-. by rewrite Nat.add_0_r in Hy.
      * right. exists j, z. by rewrite Nat.add_succ_r in Hy.
Qed.

Lemma NoDup_concat_indexed {A B} (f : nat → A → list B) start l :
  (∀ j x, l !! j = Some x → NoDup (f (start + j) x)) →
  (∀ j k x y z, l !! j = Some x → l !! k = Some y →
                z ∈ f (start + j) x → z ∈ f (start + k) y → j = k) →
  NoDup (concat_indexed f start l).
Proof.
  revert start. induction l as [|x l IH]; intros start Heach Hapart; cbn.
  - constructor.
  - apply NoDup_app. split; [|split].
    + specialize (Heach 0 x eq_refl). by rewrite Nat.add_0_r in Heach.
    + intros z Hz (j & y & Hj & Hy)%elem_of_concat_indexed.
      assert (0 = S j); [|done].
      apply (Hapart 0 (S j) x y z); [done|done| |].
      * by rewrite Nat.add_0_r.
      * by rewrite Nat.add_succ_r.
    + apply IH.
      * intros j y Hj. specialize (Heach (S j) y Hj).
        by rewrite Nat.add_succ_r in Heach.
      * intros j k y1 y2 z Hj Hk Hz1 Hz2.
        assert (S j = S k); [|lia].
        apply (Hapart (S j) (S k) y1 y2 z); [done|done| |];
          by rewrite Nat.add_succ_r.
Qed.

(** Every position under a node extends the position of the node. *)
Lemma option_preorder_prefix o here q :
  q ∈ (option_preorder here o).*1 → here `prefix_of` q.
Proof.
  revert here q. induction o as [value label disabled key options IH]
    using SelectOptionOrGroup_ind.
  intros here q. cbn. rewrite elem_of_cons. intros [->|Hq]; [done|].
  destruct (isSelectOption _); [by apply elem_of_nil in Hq|].
  rewrite fmap_concat_indexed in Hq.
  apply elem_of_concat_indexed in Hq as (j & child & Hj & Hq).
  rewrite Forall_lookup in IH. apply (IH _ _ Hj) in Hq.
  by eapply prefix_app_l.
Qed.

Lemma sibling_positions_apart (here q : Position) (j k : nat) :
  here ++ [j] `prefix_of` q → here ++ [k] `prefix_of` q → j = k.
Proof.
  intros [rest1 ->] [rest2 Heq].
  rewrite <-!(assoc_L (++)) in Heq. apply (inj (app here)) in Heq.
  by injection Heq.
Qed.

(** No position is listed twice: the traversal meets each node once. *)
Lemma option_preorder_NoDup o here :
  NoDup (option_preorder here o).*1.
Proof.
  revert here. induction o as [value label disabled key options IH]
    using SelectOptionOrGroup_ind.
  intros here. cbn. apply NoDup_cons. split.
  - destruct (isSelectOption _); [apply not_elem_of_nil|].
    rewrite fmap_concat_indexed.
    intros (j & child & Hj & Hq%option_preorder_prefix)%elem_of_concat_indexed.
    by apply prefix_snoc_not in Hq.
  - destruct (isSelectOption _); [constructor|].
    rewrite fmap_concat_indexed. apply NoDup_concat_indexed.
    + intros j child Hj. rewrite Forall_lookup in IH. by apply (IH _ _ Hj).
    + intros j k x y z _ _ Hx%option_preorder_prefix Hy%option_preorder_prefix.
      cbn in Hx, Hy. by eapply sibling_positions_apart.
Qed.

Lemma option_positions_NoDup options :
  NoDup (option_positions options).*1.
Proof.
  unfold option_positions. rewrite fmap_concat_indexed.
  apply NoDup_concat_indexed.
  - intros j o _. apply option_preorder_NoDup.
  - intros j k x y z _ _ Hx%option_preorder_prefix Hy%option_preorder_prefix.
    cbn in Hx, Hy. by apply (sibling_positions_apart [] z).
Qed.

(** An array is listed in its own order: the node at index [i] comes with
    position [[i]], before everything that comes from a later index. *)
Lemma option_positions_top options i o :
  options !! i = Some o → ([i], o) ∈ option_positions options.
Proof.
  intros Hi. apply elem_of_concat_indexed. exists i, o. split; [done|].
  destruct o; cbn. apply elem_of_cons. by left.
Qed.

Lemma filter_fmap_commute {A B} (f : A → B) (P : B → Prop)
    `{!∀ y, Decision (P y)} (l : list A) :
  filter P (f <$> l) = f <$> filter (λ x, P (f x)) l.
Proof.
  induction l as [|x l IH]; [done|].
  rewrite fmap_cons, !filter_cons, IH. by case_decide.
Qed.

(** C7.  For every array of option nodes, nested to any depth and with
    groups of any size, empty ones included: the rendered elements, read in
    document order, are the renderings of the nodes of the tree read in
    depth-first pre-order with every array in its own order, each element at
    the position of its node; no position occurs twice, among the nodes or
    among the elements, so no node is visited more than once; the [option]
    elements are, in that order, the renderings of the leaves, one for each;
    each level has one element per member of its array, in array order; and
    a node is rendered as a leaf exactly when its [value] and its [label] are
    both not [undefined], and as a group holding the rendering of its
    [options] otherwise. *)
Theorem RenderOptions_preorder (options : SelectOptions) :
  element_positions (RenderOptions options)
  = prod_map id RenderOptions_item <$> option_positions options
  ∧ NoDup (option_positions options).*1
  ∧ NoDup (element_positions (RenderOptions options)).*1
  ∧ filter (λ e, is_option_element e.2 = true)
      (element_positions (RenderOptions options))
    = prod_map id RenderOptions_item
      <$> filter (λ e, isSelectOption e.2 = true) (option_positions options)
  ∧ (∀ i, RenderOptions options !! i = RenderOptions_item <$> options !! i)
  ∧ (∀ o,
       (isSelectOption o = true
        ↔ SelectOptionOrGroup.value o ≠ None
          ∧ SelectOptionOrGroup.label o ≠ None)
       ∧ tag_of (RenderOptions_item o)
         = Some (if isSelectOption o then "option" else "optgroup")
       ∧ (isSelectOption o = false →
          children_of (RenderOptions_item o)
          = RenderOptions (SelectOptionOrGroup.options o))).
Proof.
  split; [apply element_positions_RenderOptions|].
  split; [apply option_positions_NoDup|].
  split.
  { rewrite element_positions_RenderOptions, <-list_fmap_compose.
    apply option_positions_NoDup. }
  split; [|split].
  - rewrite element_positions_RenderOptions, filter_fmap_commute.
    f_equal. apply list_filter_iff. intros [q o]. cbn.
    unfold is_option_element. rewrite RenderOptions_item_tag.
    destruct (isSelectOption o); by rewrite ?bool_decide_eq_true.
  - intros i. unfold RenderOptions. apply list_lookup_fmap.
  - intros o. split; [apply isSelectOption_true|].
    split; [apply RenderOptions_item_tag | apply RenderOptions_item_group].
Qed.

Example RenderOptions_fruit_positions :
  (λ e, (e.1, tag_of e.2)) <$> element_positions (RenderOptions Sample.fruit)
  = [ ([0], Some "option");
      ([1], Some "optgroup");
      ([1; 0], Some "option");
      ([1; 1], Some "optgroup");
      ([1; 2], Some "option");
      ([2], Some "option") ].
Proof. vm_compute. reflexivity. Qed.

Example RenderOptions_fruit_values :
  (λ e, attribute e.2 "value")
  <$> filter (λ e, is_option_element e.2 = true)
        (element_positions (RenderOptions Sample.fruit))
  = [ Some (PString ""); Some (PString "lemon"); Some (PString "lime");
      Some (PString "plum") ].
Proof. vm_compute. reflexivity. Qed.

(** ** The claims at sample renders *)

(** Scenario 7 of the spec on the bare hook: ["email"] is the first error,
    the submission ends, the refs hold elements 7 and 8. *)
Example scenario_failed_submission :
  ticks [] [ Sample.hook_input true (Some 7) (Some 8);
             Sample.hook_input false (Some 7) (Some 8);
             Sample.hook_input false (Some 7) (Some 8) ]
  = [ []; [ {| focusTarget := 7; scrollIntoViewTarget := 8;
               useSmoothScroll := false |} ]; [] ].
Proof. vm_compute. reflexivity. Qed.


Lemma absent_focus_target_is_noop_witness :
  tick [Sample.hook_input true None (Some 8)]
    (Sample.hook_input false None (Some 8)) = Normal []
  ∧ page_actions Sample.page
      [completed (tick [Sample.hook_input true None (Some 8)]
                    (Sample.hook_input false None (Some 8)))] = []
  ∧ (∀ wasSubmitting,
       focus_effect wasSubmitting (Sample.formik false 1) "email" false
         (None : option nat) (Some 8) = Normal []).
Proof.
  apply (absent_focus_target_is_noop Sample.page
           [Sample.hook_input true None (Some 8)]
           (Sample.hook_input false None (Some 8))).
  reflexivity.
Defined.

Lemma helper_targets_witness :
  ∃ f, in_fieldRef (Sample.hook_input false (Some 7) None) = Some f
       ∧ 7 = f
       ∧ (∀ k, in_containerElementRef (Sample.hook_input false (Some 7) None)
               = Some k → 7 = k)
       ∧ (in_containerElementRef (Sample.hook_input false (Some 7) None)
          = None → 7 = f).
Proof.
  apply (helper_targets [Sample.hook_input true (Some 7) None]
           (Sample.hook_input false (Some 7) None)
           {| focusTarget := 7; scrollIntoViewTarget := 7;
              useSmoothScroll := false |}).
  vm_compute. constructor.
Defined.

Lemma validity_class_unless_replaced_witness :
  validity_display_policy
    (InputProps.fieldProps (Sample.input 1 (Some "Required") None))
    (classList (input_element (Sample.input 1 (Some "Required") None)))
  ∧ validity_display_policy
      (SelectProps.fieldProps (Sample.select 0 (Some "Required") None None))
      (classList
         (select_element (Sample.select 0 (Some "Required") None None))).
Proof.
  destruct (validity_class_unless_replaced
              (Sample.input 1 (Some "Required") None)
              (Sample.select 0 (Some "Required") None None))
    as (_ & Hinput & Hselect).
  split; [apply Hinput | apply Hselect]; reflexivity.
Defined.

Lemma aria_attributes_follow_error_witness :
  attribute (input_element (Sample.input 0 (Some "Required") None))
    "aria-describedby" = Some (PString "email-feedback")
  ∧ attribute (select_element (Sample.select 3 None None None))
      "aria-describedby" = None.
Proof.
  destruct (aria_attributes_follow_error
              (Sample.input 0 (Some "Required") None)
              (Sample.select 3 None None None))
    as [(_ & _ & _ & Hset & _) (_ & _ & _ & _ & Hunset)].
  split; [apply Hset; discriminate | apply Hunset; reflexivity].
Defined.

Lemma floating_label_layout_witness :
  classList
    (BootstrapSelect
       (Sample.select 0 None None
          (Some {| BootstrapOptions.floatingLabel := Some true |})))
  = ["form-floating"]
  ∧ attribute (BootstrapSelect (Sample.select 0 None None None)) "className"
    = None.
Proof.
  split.
  - apply (floating_label_layout
             (Sample.select 0 None None
                (Some {| BootstrapOptions.floatingLabel := Some true |}))).
    reflexivity.
  - apply (floating_label_layout (Sample.select 0 None None None)).
    discriminate.
Defined.

Lemma error_message_mounting_witness :
  BootstrapErrorMessage "email" "email-feedback"
  ∈ BootstrapInput (Sample.input 1 None None)
  ∧ is_error_message (select_element (Sample.select 1 None None None))
    = false.
Proof.
  destruct (error_message_mounting (Sample.input 1 None None)
              (Sample.select 1 None None None))
    as (Hinput & _ & Hselect).
  split; [exact Hinput|].
  apply Hselect; [reflexivity|].
  change (children_of (BootstrapSelect (Sample.select 1 None None None)))
    with [select_label (Sample.select 1 None None None);
          select_element (Sample.select 1 None None None)].
  apply elem_of_cons. right. apply elem_of_cons. by left.
Defined.

(** Scenario 7 of the spec on a mounted [BootstrapInput]: the render that
    ends the submission focuses the [<input>] and scrolls to the [<label>],
    without smooth scrolling. *)
Example scenario_failed_submission_input :
  let props := Sample.input 1 (Some "Required") None in
  let submitting :=
    (BootstrapInput_render (Sample.formik true 1) props mount).1.1 in
  completed (BootstrapInput_render (Sample.formik false 1) props submitting).1.2
  = [ {| focusTarget := input_element props;
         scrollIntoViewTarget := input_label props;
         useSmoothScroll := false |} ].
Proof. vm_compute. reflexivity. Qed.

Lemma field_components_never_smooth_witness :
  ∃ c, completed
         (BootstrapInput_render (Sample.formik false 1)
            (Sample.input 1 (Some "Required") None)
            (BootstrapInput_render (Sample.formik true 1)
               (Sample.input 1 (Some "Required") None) mount).1.1).1.2
       = [c]
       ∧ useSmoothScroll c = false.
Proof.
  eexists. split; [apply scenario_failed_submission_input|].
  apply (field_components_never_smooth (Sample.formik false 1)
           (Sample.input 1 (Some "Required") None)
           (Sample.select 1 (Some "Required") None None)
           (BootstrapInput_render (Sample.formik true 1)
              (Sample.input 1 (Some "Required") None) mount).1.1).
  left. rewrite scenario_failed_submission_input. apply elem_of_cons. by left.
Defined.

(** * Further properties of the code *)

(** ** Wiring of the rendered fields *)

(** The props object of the two controls, spelled out. *)
Lemma input_element_props props :
  props_of (input_element props)
  = let fieldProps := InputProps.fieldProps props in
    let id :=
      element_id (InputProps.inputProps props)
        (FieldInputProps.name (FieldProps.field fieldProps)) in
    <["aria-describedby" :=
        if isInvalid fieldProps
        then PString (invalidFeedbackId id) else PUndefined]>
      (<["aria-invalid" := PBool (isInvalid fieldProps)]>
         (<["value" :=
              value_or_empty
                (FieldInputProps.value (FieldProps.field fieldProps))]>
            (<["id" := PString id]>
               (default ∅ (InputProps.inputProps props)
                ∪ (FieldInputProps.object (FieldProps.field fieldProps)
                   ∪ <["className" := PString (input_className props)]> ∅))))).
Proof. done. Qed.

Lemma select_element_props props :
  props_of (select_element props)
  = let fieldProps := SelectProps.fieldProps props in
    let id :=
      element_id (SelectProps.inputProps props)
        (FieldInputProps.name (FieldProps.field fieldProps)) in
    <["aria-describedby" :=
        if isInvalid fieldProps
        then PString (invalidFeedbackId id) else PUndefined]>
      (<["aria-invalid" := PBool (isInvalid fieldProps)]>
         (<["value" :=
              value_or_empty
                (FieldInputProps.value (FieldProps.field fieldProps))]>
            (<["id" := PString id]>
               (default ∅ (SelectProps.inputProps props)
                ∪ (FieldInputProps.object (FieldProps.field fieldProps)
                   ∪ <["className" := PString (select_className props)]>
                       ∅))))).
Proof. done. Qed.

Lemma attribute_props_of n k :
  attribute n k
  = match props_of n !! k with
    | Some PUndefined | None => None
    | Some v => Some v
    end.
Proof. destruct n; [done|done|]. cbn. by rewrite lookup_empty. Qed.

Lemma spread_optional_hit (o : option (gmap string PropValue)) k v :
  o ≫= (.!! k) = Some v → default ∅ o !! k = Some v.
Proof. by destruct o. Qed.

Lemma field_object_lookup f :
  FieldInputProps.object f !! "name" = Some (PString (FieldInputProps.name f))
  ∧ FieldInputProps.object f !! "onChange"
    = Some (PHandler (FieldInputProps.onChange f))
  ∧ FieldInputProps.object f !! "onBlur"
    = Some (PHandler (FieldInputProps.onBlur f)).
Proof.
  unfold FieldInputProps.object.
  destruct (FieldInputProps.checked f), (FieldInputProps.multiple f);
    by jsx_lookup.
Qed.

(** X1.  On every render of either field the [htmlFor] of the label is the
    [id] of the control, whatever [labelProps] and [inputProps] carry; that
    id is the string [inputProps.id] when there is one and the field's name
    when [inputProps] has no [id] or an [undefined] one. *)
Theorem label_is_bound_to_control (input : InputProps.t)
    (select : SelectProps.t) :
  let bound (inputProps : option (gmap string PropValue)) (name : string)
      (label control : VNode) : Prop :=
    ∃ id, attribute label "htmlFor" = Some (PString id)
          ∧ attribute control "id" = Some (PString id)
          ∧ (∀ s, inputProps ≫= (.!! "id") = Some (PString s) → id = s)
          ∧ (inputProps ≫= (.!! "id") = None → id = name)
          ∧ (inputProps ≫= (.!! "id") = Some PUndefined → id = name) in
  bound (InputProps.inputProps input)
    (FieldInputProps.name (FieldProps.field (InputProps.fieldProps input)))
    (input_label input) (input_element input)
  ∧ bound (SelectProps.inputProps select)
      (FieldInputProps.name
         (FieldProps.field (SelectProps.fieldProps select)))
      (select_label select) (select_element select).
Proof.
  cbn zeta. split.
  - eexists. split; [|split; [|split; [|split]]].
    + unfold input_label, attribute. jsx_lookup. reflexivity.
    + rewrite attribute_props_of, input_element_props. cbn zeta.
      by jsx_lookup.
    + intros s Hs. unfold element_id. by rewrite Hs.
    + intros Hnone. unfold element_id. by rewrite Hnone.
    + intros Hundef. unfold element_id. by rewrite Hundef.
  - eexists. split; [|split; [|split; [|split]]].
    + unfold select_label, attribute. jsx_lookup. reflexivity.
    + rewrite attribute_props_of, select_element_props. cbn zeta.
      by jsx_lookup.
    + intros s Hs. unfold element_id. by rewrite Hs.
    + intros Hnone. unfold element_id. by rewrite Hnone.
    + intros Hundef. unfold element_id. by rewrite Hundef.
Qed.

(** X2.  When the field has an error, the [aria-describedby] of the control
    names the element that the mounted error message renders: the
    [BootstrapErrorMessage] in the tree is Formik's [ErrorMessage] for the
    same field name, and for every message its render function gives a
    [<div>] of class [invalid-feedback] with that id and the message as its
    text. *)
Theorem described_by_names_the_feedback (input : InputProps.t)
    (select : SelectProps.t) :
  let described_by (fieldProps : FieldProps.t) (control : VNode)
      (tree : list VNode) : Prop :=
    FieldMetaProps.error (FieldProps.meta fieldProps) ≠ None →
    ∃ feedback render,
      ErrorMessage (FieldInputProps.name (FieldProps.field fieldProps)) render
      ∈ tree
      ∧ attribute control "aria-describedby" = Some (PString feedback)
      ∧ ∀ message,
          tag_of (render message) = Some "div"
          ∧ attribute (render message) "id" = Some (PString feedback)
          ∧ classList (render message) = ["invalid-feedback"]
          ∧ children_of (render message) = [Text message] in
  described_by (InputProps.fieldProps input) (input_element input)
    (BootstrapInput input)
  ∧ described_by (SelectProps.fieldProps select) (select_element select)
      (children_of (BootstrapSelect select)).
Proof.
  cbn zeta. split.
  - intros Herror%isInvalid_true. do 2 eexists. split; [|split].
    + unfold BootstrapInput, BootstrapErrorMessage.
      apply elem_of_cons. right. apply elem_of_cons. right.
      apply elem_of_cons. left. reflexivity.
    + rewrite attribute_props_of, input_element_props.
      cbn zeta. rewrite Herror. jsx_lookup. reflexivity.
    + intros message. cbn beta. unfold attribute. jsx_lookup. done.
  - intros Herror%isInvalid_true. do 2 eexists. split; [|split].
    + rewrite BootstrapSelect_children, Herror.
      apply elem_of_app. right. apply elem_of_cons. left. reflexivity.
    + rewrite attribute_props_of, select_element_props.
      cbn zeta. rewrite Herror. jsx_lookup. reflexivity.
    + intros message. cbn beta. unfold attribute. jsx_lookup. done.
Qed.

(** X3.  The control is always controlled: on every render the [value]
    attribute is set, to the field's value, or to the empty string when that
    value is [undefined]; a [value] in [inputProps] does not change it. *)
Theorem value_is_always_set (input : InputProps.t) (select : SelectProps.t) :
  let controlled (fieldProps : FieldProps.t) (control : VNode) : Prop :=
    let value := FieldInputProps.value (FieldProps.field fieldProps) in
    ∃ v, attribute control "value" = Some v
         ∧ (value = PUndefined → v = PString "")
         ∧ (value ≠ PUndefined → v = value) in
  controlled (InputProps.fieldProps input) (input_element input)
  ∧ controlled (SelectProps.fieldProps select) (select_element select).
Proof.
  cbn zeta. split.
  - rewrite attribute_props_of, input_element_props. cbn zeta. jsx_lookup.
    destruct (FieldInputProps.value _); cbn; eexists; by repeat split.
  - rewrite attribute_props_of, select_element_props. cbn zeta. jsx_lookup.
    destruct (FieldInputProps.value _); cbn; eexists; by repeat split.
Qed.


(** X5.  Unless [inputProps] carries the same prop, the control gets the
    Formik field's [name], [onChange] and [onBlur]. *)
Theorem field_handlers_reach_control (input : InputProps.t)
    (select : SelectProps.t) :
  let wired (field : FieldInputProps.t)
      (inputProps : option (gmap string PropValue)) (control : VNode)
      : Prop :=
    (inputProps ≫= (.!! "name") = None →
     attribute control "name" = Some (PString (FieldInputProps.name field)))
    ∧ (inputProps ≫= (.!! "onChange") = None →
       attribute control "onChange"
       = Some (PHandler (FieldInputProps.onChange field)))
    ∧ (inputProps ≫= (.!! "onBlur") = None →
       attribute control "onBlur"
       = Some (PHandler (FieldInputProps.onBlur field))) in
  wired (FieldProps.field (InputProps.fieldProps input))
    (InputProps.inputProps input) (input_element input)
  ∧ wired (FieldProps.field (SelectProps.fieldProps select))
      (SelectProps.inputProps select) (select_element select).
Proof.
  cbn zeta.
  destruct (field_object_lookup
              (FieldProps.field (InputProps.fieldProps input)))
    as (Hn1 & Hc1 & Hb1).
  destruct (field_object_lookup
              (FieldProps.field (SelectProps.fieldProps select)))
    as (Hn2 & Hc2 & Hb2).
  split; (split; [|split]); intros Hnone%spread_optional_miss;
    rewrite attribute_props_of, ?input_element_props, ?select_element_props;
    cbn zeta; rewrite !lookup_insert_ne by done;
    rewrite (lookup_union_r _ _ _ Hnone);
    erewrite lookup_union_Some_l by eassumption; done.
Qed.

(** X6.  The label takes every entry of [labelProps] except [htmlFor] and
    [children] (the label is written with [props.label] as its JSX child,
    which takes the place of such an entry); without a [className] among
    them its class is [form-check-label] for a checkbox or radio input, and
    [form-label] for any other input and for a select. *)
Theorem labelProps_pass_through (input : InputProps.t)
    (select : SelectProps.t) :
  (∀ k v, k ≠ "htmlFor" → k ≠ "children" →
          (InputProps.labelProps input ≫= (.!! k) = Some v →
           props_of (input_label input) !! k = Some v)
          ∧ (SelectProps.labelProps select ≫= (.!! k) = Some v →
             props_of (select_label select) !! k = Some v))
  ∧ (InputProps.labelProps input ≫= (.!! "className") = None →
     classList (input_label input)
     = [if isCheckboxOrRadio (InputProps.inputProps input)
        then "form-check-label" else "form-label"])
  ∧ (SelectProps.labelProps select ≫= (.!! "className") = None →
     classList (select_label select) = ["form-label"]).
Proof.
  split; [|split].
  - intros k v Hk _. split; intros Hv%spread_optional_hit;
      unfold input_label, select_label, props_of, spread_optional;
      unfold jsx_props; cbn [foldl];
      rewrite lookup_insert_ne by done; by apply lookup_union_Some_l.
  - intros Hnone%spread_optional_miss.
    unfold classList, attribute, input_label, spread_optional.
    unfold jsx_props; cbn [foldl].
    rewrite lookup_insert_ne by done. rewrite (lookup_union_r _ _ _ Hnone).
    rewrite lookup_insert_eq. by destruct (isCheckboxOrRadio _).
  - intros Hnone%spread_optional_miss.
    unfold classList, attribute, select_label, spread_optional.
    unfold jsx_props; cbn [foldl].
    rewrite lookup_insert_ne by done. rewrite (lookup_union_r _ _ _ Hnone).
    by rewrite lookup_insert_eq.
Qed.


(** ** The focus hook, from any state of the instance *)

Section FocusHookMore.
Context {E : Type}.
Implicit Types (st : HookState) (i : HookInput E).

(** What a step does, with the effect body spelled out. *)
Lemma useFocusInvalidField_outcome st i :
  (useFocusInvalidField st i).2 = Normal []
  ∨ (useFocusInvalidField st i).2
    = focus_effect (wasSubmitting st i) (in_formik i) (in_name i)
        (default false (in_smoothScroll i))
        (in_fieldRef i) (in_containerElementRef i).
Proof. rewrite useFocusInvalidField_effect. case_bool_decide; auto. Qed.

(** X8.  While the form is submitting the hook never calls the helper,
    whatever the renders before and whatever the errors and the refs. *)
Theorem quiet_while_submitting st i :
  isSubmitting (in_formik i) = true →
  (useFocusInvalidField st i).2 = Normal [].
Proof.
  intros Hs. destruct (useFocusInvalidField_outcome st i) as [->| ->];
    [done|].
  rewrite focus_effect_calls, Hs. cbn [negb]. by rewrite andb_false_r.
Qed.

(** X9.  With an empty error object the hook never calls the helper: a
    submission that passes validation moves no focus. *)
Theorem quiet_without_errors st i :
  errors_entries (errors (in_formik i)) = [] →
  (useFocusInvalidField st i).2 = Normal [].
Proof.
  intros Hnone. destruct (useFocusInvalidField_outcome st i) as [->| ->];
    [done|].
  rewrite focus_effect_calls. unfold Object_keys. rewrite Hnone. cbn.
  by rewrite andb_false_r.
Qed.

Lemma call_needs_first_error st i c :
  c ∈ completed (useFocusInvalidField st i).2 →
  head (Object_keys (errors (in_formik i))) = Some (in_name i).
Proof.
  destruct (useFocusInvalidField_outcome st i) as [->| ->];
    [by intros ?%elem_of_nil|].
  rewrite focus_effect_calls. cbn [completed].
  destruct (bool_decide_reflect
              (head (Object_keys (errors (in_formik i))) = Some (in_name i)));
    [done|].
  rewrite andb_false_r. by intros ?%elem_of_nil.
Qed.

(** X10.  Two instances of the hook that watch different names under the
    same Formik context never both call the helper at a render: at most one
    field is focused. *)
Theorem at_most_one_field_is_focused (st1 st2 : HookState)
    (i1 i2 : HookInput E) :
  in_formik i1 = in_formik i2 →
  in_name i1 ≠ in_name i2 →
  (useFocusInvalidField st1 i1).2 = Normal []
  ∨ (useFocusInvalidField st2 i2).2 = Normal [].
Proof.
  intros Hsame Hnames.
  destruct (useFocusInvalidField st1 i1).2 as [[|c1 l1]|] eqn:H1;
    [by left| |].
  - destruct (useFocusInvalidField st2 i2).2 as [[|c2 l2]|] eqn:H2;
      [by right| |].
    + exfalso. apply Hnames.
      assert (Hk1 := call_needs_first_error st1 i1 c1).
      assert (Hk2 := call_needs_first_error st2 i2 c2).
      rewrite H1 in Hk1. rewrite H2 in Hk2. cbn in Hk1, Hk2.
      rewrite Hsame in Hk1.
      rewrite Hk1 in Hk2 by apply list_elem_of_here.
      injection Hk2 as ->; [done|apply list_elem_of_here].
    + exfalso. destruct (useFocusInvalidField_outcome st2 i2) as [Heq|Heq];
        rewrite Heq in H2; [done|]. by rewrite focus_effect_calls in H2.
  - exfalso. destruct (useFocusInvalidField_outcome st1 i1) as [Heq|Heq];
      rewrite Heq in H1; [done|]. by rewrite focus_effect_calls in H1.
Qed.
End FocusHookMore.

(** ** Mounted fields across renders *)

Lemma BootstrapInput_render_hook formikContext props st :
  BootstrapInput_render formikContext props st
  = let step :=
      useFocusInvalidField st
        {| in_name :=
             FieldInputProps.name
               (FieldProps.field (InputProps.fieldProps props));
           in_smoothScroll := None;
           in_formik := formikContext;
           in_fieldRef := Some (input_element props);
           in_containerElementRef := Some (input_label props) |} in
    (step.1, step.2, BootstrapInput props).
Proof.
  unfold BootstrapInput_render.
  destruct (BootstrapInput_refs props) as [-> ->].
  by destruct (useFocusInvalidField _ _).
Qed.

Lemma BootstrapSelect_render_hook formikContext props st :
  BootstrapSelect_render formikContext props st
  = let step :=
      useFocusInvalidField st
        {| in_name :=
             FieldInputProps.name
               (FieldProps.field (SelectProps.fieldProps props));
           in_smoothScroll := None;
           in_formik := formikContext;
           in_fieldRef := Some (select_element props);
           in_containerElementRef := Some (BootstrapSelect props) |} in
    (step.1, step.2, BootstrapSelect props).
Proof.
  unfold BootstrapSelect_render.
  destruct (BootstrapSelect_refs props) as [-> ->].
  by destruct (useFocusInvalidField _ _).
Qed.

(** The effect runs on the render after a submitting one, from any state. *)
Lemma step_after_submitting {E} (st : HookState) (i1 i2 : HookInput E) :
  isSubmitting (in_formik i1) = true →
  isSubmitting (in_formik i2) = false →
  (useFocusInvalidField (useFocusInvalidField st i1).1 i2).2
  = focus_effect (Some true) (in_formik i2) (in_name i2)
      (default false (in_smoothScroll i2))
      (in_fieldRef i2) (in_containerElementRef i2).
Proof.
  intros H1 H2. rewrite useFocusInvalidField_effect.
  rewrite wasSubmitting_after_submitting by done.
  rewrite useFocusInvalidField_state. cbn [effect_deps].
  case_bool_decide as Heq; [|done].
  exfalso. injection Heq. intros. congruence.
Qed.

(** X11.  The first render of a field never moves focus: whatever the Formik
    state at mount, also with the field as first error of an idle form, the
    bare hook, a mounted [BootstrapInput] and a mounted [BootstrapSelect]
    make no helper call. *)
Theorem quiet_on_mount {E} (i : HookInput E) (formikContext : FormikProps)
    (input : InputProps.t) (select : SelectProps.t) :
  tick [] i = Normal []
  ∧ (BootstrapInput_render formikContext input mount).1.2 = Normal []
  ∧ (BootstrapSelect_render formikContext select mount).1.2 = Normal [].
Proof.
  assert (Hmount : ∀ F (j : HookInput F),
            (useFocusInvalidField mount j).2 = Normal []).
  { intros F j. destruct (useFocusInvalidField_outcome mount j) as [->| ->];
      [done|]. by rewrite focus_effect_calls. }
  split; [apply Hmount|].
  rewrite BootstrapInput_render_hook, BootstrapSelect_render_hook. cbn zeta.
  split; apply Hmount.
Qed.

(** X12.  A mounted field that is rendered while the form is submitting and
    then with the submission over and its name as first error key makes, at
    that second render, exactly one helper call: it focuses its control (the
    [<input>] or the [<select>]), scrolls to the [<label>] of the input or
    to the [<div>] around the select, and asks for no smooth scrolling.  The
    props may change between the two renders, and the state before them is
    arbitrary. *)
Theorem mounted_field_focuses_after_failed_submit (st : HookState)
    (submitting idle : FormikProps)
    (input0 input : InputProps.t) (select0 select : SelectProps.t) :
  isSubmitting submitting = true →
  isSubmitting idle = false →
  (head (Object_keys (errors idle))
   = Some (FieldInputProps.name
             (FieldProps.field (InputProps.fieldProps input))) →
   (BootstrapInput_render idle input
      (BootstrapInput_render submitting input0 st).1.1).1.2
   = Normal [ {| focusTarget := input_element input;
                 scrollIntoViewTarget := input_label input;
                 useSmoothScroll := false |} ])
  ∧ (head (Object_keys (errors idle))
     = Some (FieldInputProps.name
               (FieldProps.field (SelectProps.fieldProps select))) →
     (BootstrapSelect_render idle select
        (BootstrapSelect_render submitting select0 st).1.1).1.2
     = Normal [ {| focusTarget := select_element select;
                   scrollIntoViewTarget := BootstrapSelect select;
                   useSmoothScroll := false |} ]).
Proof.
  intros Hsub Hidle. split; intros Hfirst.
  - rewrite !BootstrapInput_render_hook. cbn zeta. cbn [fst snd].
    rewrite step_after_submitting by done.
    rewrite focus_effect_calls. cbn [in_formik in_name in_fieldRef].
    rewrite Hidle, Hfirst. by rewrite !bool_decide_eq_true_2.
  - rewrite !BootstrapSelect_render_hook. cbn zeta. cbn [fst snd].
    rewrite step_after_submitting by done.
    rewrite focus_effect_calls. cbn [in_formik in_name in_fieldRef].
    rewrite Hidle, Hfirst. by rewrite !bool_decide_eq_true_2.
Qed.

(** ** More on the option renderer *)

(** X13.  [RenderOptions] emits nothing but [<option>] and [<optgroup>]
    elements: every element of its output is one of the two, an [<option>]
    holds no element (only its label as text), and the elements directly
    under an [<optgroup>] are again [<option>]s and [<optgroup>]s. *)
Theorem RenderOptions_content_model (options : SelectOptions)
    (e : Position * VNode) :
  e ∈ element_positions (RenderOptions options) →
  (tag_of e.2 = Some "option"
   ∧ Forall (λ child, tag_of child = None) (children_of e.2))
  ∨ (tag_of e.2 = Some "optgroup"
     ∧ Forall (λ child, tag_of child = Some "option"
                        ∨ tag_of child = Some "optgroup")
         (children_of e.2)).
Proof.
  rewrite element_positions_RenderOptions.
  intros ([q o] & -> & _)%list_elem_of_fmap. cbn [prod_map snd id].
  rewrite RenderOptions_item_tag.
  destruct (isSelectOption o) eqn:Hkind; [left|right]; (split; [done|]).
  - destruct o as [value label disabled key children]. cbn in *.
    rewrite Hkind. destruct label; cbn; by repeat constructor.
  - rewrite RenderOptions_item_group by done. unfold RenderOptions.
    apply Forall_forall. intros child (o' & -> & _)%list_elem_of_fmap.
    rewrite RenderOptions_item_tag. destruct (isSelectOption o'); auto.
Qed.

(** X14.  An object that has both a [value] and a [label] is rendered as an
    [<option>] whatever else it carries: its [options], if it has any, are
    not rendered.  The [<option>] has the object's [key], its [value], its
    [disabled] flag when there is one, and the label as its only child. *)
Theorem option_ignores_options (value label : string)
    (disabled : option bool) (key : option Key) (options : SelectOptions) :
  let o := SelectOptionOrGroup.Build (Some value) (Some label) disabled key
             options in
  RenderOptions_item o
  = RenderOptions_item
      (SelectOptionOrGroup.Build (Some value) (Some label) disabled key [])
  ∧ element_positions (RenderOptions [o]) = [([0], RenderOptions_item o)]
  ∧ tag_of (RenderOptions_item o) = Some "option"
  ∧ children_of (RenderOptions_item o) = [Text label]
  ∧ attribute (RenderOptions_item o) "value" = Some (PString value)
  ∧ attribute (RenderOptions_item o) "disabled" = PBool <$> disabled.
Proof.
  cbn zeta. do 4 (split; [done|]). split.
  - unfold attribute. cbn. by jsx_lookup.
  - unfold attribute. cbn. jsx_lookup. by destruct disabled.
Qed.

(** X15.  An object that lacks a [value] or a [label] is rendered as an
    [<optgroup>], also when it has one of the two: a [value] it carries is
    not rendered, its [label] (when it has one) labels the group, and its
    [options] are rendered inside. *)
Theorem optgroup_ignores_value (o : SelectOptionOrGroup.t) :
  SelectOptionOrGroup.value o = None ∨ SelectOptionOrGroup.label o = None →
  tag_of (RenderOptions_item o) = Some "optgroup"
  ∧ attribute (RenderOptions_item o) "value" = None
  ∧ attribute (RenderOptions_item o) "label"
    = PString <$> SelectOptionOrGroup.label o
  ∧ attribute (RenderOptions_item o) "disabled"
    = PBool <$> SelectOptionOrGroup.disabled o
  ∧ children_of (RenderOptions_item o)
    = RenderOptions (SelectOptionOrGroup.options o).
Proof.
  intros Hmissing.
  assert (Hkind : isSelectOption o = false).
  { apply not_true_iff_false. rewrite isSelectOption_true.
    intros [? ?]. by destruct Hmissing. }
  destruct o as [value label disabled key options]. cbn in *.
  rewrite Hkind. unfold attribute. cbn.
  split; [done|]. split; [by jsx_lookup|].
  split; [jsx_lookup; by destruct label|].
  split; [jsx_lookup; by destruct disabled|done].
Qed.

(** X16.  The elements under the rendered [<select>] are the rendering of
    [props.options]: in document order they are the renderings of its nodes
    in pre-order, the [<option>]s among them are its leaves, and a
    [<select>] without an [options] prop has no child at all. *)
Theorem select_holds_its_options (props : SelectProps.t) :
  element_positions (children_of (select_element props))
  = prod_map id RenderOptions_item
    <$> option_positions (default [] (SelectProps.options props))
  ∧ filter (λ e, is_option_element e.2 = true)
      (element_positions (children_of (select_element props)))
    = prod_map id RenderOptions_item
      <$> filter (λ e, isSelectOption e.2 = true)
            (option_positions (default [] (SelectProps.options props)))
  ∧ (SelectProps.options props = None →
     children_of (select_element props) = []).
Proof.
  change (children_of (select_element props))
    with (RenderOptions (default [] (SelectProps.options props))).
  split; [apply element_positions_RenderOptions|]. split.
  - rewrite element_positions_RenderOptions, filter_fmap_commute.
    f_equal. apply list_filter_iff. intros [q o]. cbn.
    unfold is_option_element. rewrite RenderOptions_item_tag.
    destruct (isSelectOption o); by rewrite ?bool_decide_eq_true.
  - by intros ->.
Qed.

(** ** The form wrapper *)

(** X17.  [Form] hands Formik [validateOnChange = false] whatever the
    configuration asks for and every other entry of the configuration as it
    is; and for every render props the [<form>] it renders has [noValidate]
    set, submits through Formik's [handleSubmit], and holds what the
    [children] function returns for these render props, or the static
    children. *)
Theorem Form_overrides (props : FormikConfig.t)
    (renderProps : FormikRenderProps) :
  formik_props (Form props) !! "validateOnChange" = Some (CBool false)
  ∧ (∀ k, k ≠ "validateOnChange" →
          formik_props (Form props) !! k
          = FormikConfig.formikProps props !! k)
  ∧ tag_of (formik_render (Form props) renderProps) = Some "form"
  ∧ attribute (formik_render (Form props) renderProps) "noValidate"
    = Some (PBool true)
  ∧ attribute (formik_render (Form props) renderProps) "onSubmit"
    = Some (PHandler (handleSubmit renderProps))
  ∧ children_of (formik_render (Form props) renderProps)
    = match FormikConfig.children props with
      | ChildrenFunction children => children renderProps
      | ChildrenNodes children => children
      end.
Proof.
  split; [apply lookup_insert_eq|].
  split; [intros k Hk; by apply lookup_insert_ne|].
  split; [done|]. unfold attribute. cbn.
  split; [by jsx_lookup|]. split; [by jsx_lookup|done].
Qed.

(** ** Exact class lists and the bare hook *)

Lemma isCheckboxOrRadio_decide inputProps :
  isCheckboxOrRadio inputProps
  = bool_decide (inputProps ≫= (.!! "type") = Some (PString "checkbox")
                 ∨ inputProps ≫= (.!! "type") = Some (PString "radio")).
Proof.
  unfold isCheckboxOrRadio.
  repeat case_bool_decide; cbn; intuition congruence.
Qed.

(** X7.  When [inputProps] carries no [className], the class list of the
    control is exactly its structural class followed by at most one validity
    class.  The structural class is [form-check-input] for an [<input>]
    whose [inputProps.type] is ["checkbox"] or ["radio"], [form-control] for
    any other [<input>], and [form-select] for a [<select>].  The validity
    class is missing while [submitCount] is zero or negative, [is-invalid]
    for a positive count with an error and [is-valid] for a positive count
    without one; the two never come together. *)
Theorem class_list_is_exact (input : InputProps.t) (select : SelectProps.t) :
  let type := InputProps.inputProps input ≫= (.!! "type") in
  let validity (fieldProps : FieldProps.t) : list string :=
    if bool_decide (submitCount (FieldProps.form fieldProps) ≤ 0)%Z then []
    else if FieldMetaProps.error (FieldProps.meta fieldProps) is Some _
         then ["is-invalid"] else ["is-valid"] in
  (InputProps.inputProps input ≫= (.!! "className") = None →
   classList (input_element input)
   = (if bool_decide (type = Some (PString "checkbox")
                      ∨ type = Some (PString "radio"))
      then "form-check-input" else "form-control")
     :: validity (InputProps.fieldProps input))
  ∧ (SelectProps.inputProps select ≫= (.!! "className") = None →
     classList (select_element select)
     = "form-select" :: validity (SelectProps.fieldProps select)).
Proof.
  cbn zeta. rewrite <-isCheckboxOrRadio_decide. split; intros Hnone.
  - rewrite (classList_of_className _ _ (input_element_className _ Hnone)).
    unfold input_className. rewrite validationClass_cases.
    destruct (isCheckboxOrRadio _),
      (FieldMetaProps.error (FieldProps.meta (InputProps.fieldProps input)));
      repeat case_bool_decide; try lia; by compute_class_tokens.
  - rewrite (classList_of_className _ _ (select_element_className _ Hnone)).
    unfold select_className. rewrite validationClass_cases.
    destruct
      (FieldMetaProps.error (FieldProps.meta (SelectProps.fieldProps select)));
      repeat case_bool_decide; try lia; by compute_class_tokens.
Qed.

(** X18.  The bare hook, from any state of the instance: rendered while the
    form is submitting and then with the submission over, its name as first
    error key and its focus-target ref set, it makes at that second render
    exactly one helper call, which passes on the hook's own [smoothScroll]
    argument ([false] when it was omitted), focuses the element of
    [fieldRef] and scrolls to the element of [containerElementRef], or to
    the focus target when that ref is null. *)
Theorem hook_passes_its_arguments {E} (st : HookState)
    (i1 i2 : HookInput E) (field : E) :
  isSubmitting (in_formik i1) = true →
  isSubmitting (in_formik i2) = false →
  head (Object_keys (errors (in_formik i2))) = Some (in_name i2) →
  in_fieldRef i2 = Some field →
  ∃ c, (useFocusInvalidField (useFocusInvalidField st i1).1 i2).2
       = Normal [c]
       ∧ focusTarget c = field
       ∧ (∀ b, in_smoothScroll i2 = Some b → useSmoothScroll c = b)
       ∧ (in_smoothScroll i2 = None → useSmoothScroll c = false)
       ∧ (∀ k, in_containerElementRef i2 = Some k →
               scrollIntoViewTarget c = k)
       ∧ (in_containerElementRef i2 = None →
          scrollIntoViewTarget c = field).
Proof.
  intros H1 H2 Hfirst Hfield.
  rewrite step_after_submitting by done.
  rewrite focus_effect_calls, H2, Hfirst, Hfield.
  rewrite !bool_decide_eq_true_2 by done. cbn [andb negb].
  eexists. split; [reflexivity|]. cbn.
  split; [done|]. split; [by intros b ->|]. split; [by intros ->|].
  split; [by intros k ->|by intros ->].
Qed.

(** ** The further properties at sample renders *)

Lemma described_by_names_the_feedback_witness :
  ∃ feedback render,
    ErrorMessage "email" render
    ∈ BootstrapInput (Sample.input 1 (Some "Required") None)
    ∧ attribute (input_element (Sample.input 1 (Some "Required") None))
        "aria-describedby" = Some (PString feedback)
    ∧ ∀ message,
        tag_of (render message) = Some "div"
        ∧ attribute (render message) "id" = Some (PString feedback)
        ∧ classList (render message) = ["invalid-feedback"]
        ∧ children_of (render message) = [Text message].
Proof.
  apply (proj1 (described_by_names_the_feedback
                  (Sample.input 1 (Some "Required") None)
                  (Sample.select 1 (Some "Required") None None))).
  discriminate.
Defined.


Lemma quiet_while_submitting_witness :
  (useFocusInvalidField mount (Sample.hook_input true (Some 7) (Some 8))).2
  = Normal [].
Proof.
  apply (quiet_while_submitting mount
           (Sample.hook_input true (Some 7) (Some 8))).
  reflexivity.
Defined.

Lemma quiet_without_errors_witness :
  (useFocusInvalidField
     (useFocusInvalidField mount
        (Sample.hook_input true (Some 7) (Some 8))).1
     {| in_name := "email"; in_smoothScroll := None;
        in_formik := {| submitCount := 1; isSubmitting := false;
                        errors := Demo.errors_none |};
        in_fieldRef := Some 7; in_containerElementRef := Some 8 |}).2
  = Normal [].
Proof.
  apply (quiet_without_errors
           (useFocusInvalidField mount
              (Sample.hook_input true (Some 7) (Some 8))).1
           {| in_name := "email"; in_smoothScroll := None;
              in_formik := {| submitCount := 1; isSubmitting := false;
                              errors := Demo.errors_none |};
              in_fieldRef := Some 7; in_containerElementRef := Some 8 |}).
  reflexivity.
Defined.

Lemma at_most_one_field_is_focused_witness :
  (useFocusInvalidField
     (useFocusInvalidField mount
        (Sample.hook_input true (Some 7) (Some 8))).1
     (Sample.hook_input false (Some 7) (Some 8))).2 = Normal []
  ∨ (useFocusInvalidField
       (useFocusInvalidField mount
          (Sample.hook_input true (Some 7) (Some 8))).1
       {| in_name := "password"; in_smoothScroll := None;
          in_formik := Sample.formik false 1;
          in_fieldRef := Some 9; in_containerElementRef := None |}).2
    = Normal [].
Proof.
  apply (at_most_one_field_is_focused
           (useFocusInvalidField mount
              (Sample.hook_input true (Some 7) (Some 8))).1
           (useFocusInvalidField mount
              (Sample.hook_input true (Some 7) (Some 8))).1
           (Sample.hook_input false (Some 7) (Some 8))
           {| in_name := "password"; in_smoothScroll := None;
              in_formik := Sample.formik false 1;
              in_fieldRef := Some 9; in_containerElementRef := None |}).
  - reflexivity.
  - discriminate.
Defined.

Lemma mounted_field_focuses_after_failed_submit_witness :
  (BootstrapSelect_render (Sample.formik false 1)
     (Sample.select 1 (Some "Required") (Some Sample.fruit) None)
     (BootstrapSelect_render (Sample.formik true 1)
        (Sample.select 1 None (Some Sample.fruit) None) mount).1.1).1.2
  = Normal
      [ {| focusTarget :=
             select_element
               (Sample.select 1 (Some "Required") (Some Sample.fruit) None);
           scrollIntoViewTarget :=
             BootstrapSelect
               (Sample.select 1 (Some "Required") (Some Sample.fruit) None);
           useSmoothScroll := false |} ].
Proof.
  apply (proj2 (mounted_field_focuses_after_failed_submit mount
                  (Sample.formik true 1) (Sample.formik false 1)
                  (Sample.input 1 None None)
                  (Sample.input 1 (Some "Required") None)
                  (Sample.select 1 None (Some Sample.fruit) None)
                  (Sample.select 1 (Some "Required") (Some Sample.fruit)
                     None)
                  eq_refl eq_refl)).
  reflexivity.
Defined.

Lemma RenderOptions_content_model_witness :
  (tag_of (RenderOptions_item (Sample.group None [])) = Some "option"
   ∧ Forall (λ child, tag_of child = None)
       (children_of (RenderOptions_item (Sample.group None []))))
  ∨ (tag_of (RenderOptions_item (Sample.group None [])) = Some "optgroup"
     ∧ Forall (λ child, tag_of child = Some "option"
                        ∨ tag_of child = Some "optgroup")
         (children_of (RenderOptions_item (Sample.group None [])))).
Proof.
  apply (RenderOptions_content_model Sample.fruit
           ([1; 1], RenderOptions_item (Sample.group None []))).
  rewrite element_positions_RenderOptions.
  apply (list_elem_of_fmap_2' _ _ ([1; 1], Sample.group None []));
    [|reflexivity].
  do 3 apply list_elem_of_further. apply list_elem_of_here.
Defined.

Lemma optgroup_ignores_value_witness :
  tag_of (RenderOptions_item Demo.unlabelled) = Some "optgroup"
  ∧ attribute (RenderOptions_item Demo.unlabelled) "value" = None
  ∧ attribute (RenderOptions_item Demo.unlabelled) "label"
    = PString <$> SelectOptionOrGroup.label Demo.unlabelled
  ∧ attribute (RenderOptions_item Demo.unlabelled) "disabled"
    = PBool <$> SelectOptionOrGroup.disabled Demo.unlabelled
  ∧ children_of (RenderOptions_item Demo.unlabelled)
    = RenderOptions (SelectOptionOrGroup.options Demo.unlabelled).
Proof.
  apply (optgroup_ignores_value Demo.unlabelled). right. reflexivity.
Defined.

Lemma hook_passes_its_arguments_witness :
  ∃ c, (useFocusInvalidField
          (useFocusInvalidField mount
             (Sample.hook_input true (Some 7) None)).1
          {| in_name := "email"; in_smoothScroll := Some true;
             in_formik := Sample.formik false 1;
             in_fieldRef := Some 7; in_containerElementRef := None |}).2
       = Normal [c]
       ∧ focusTarget c = 7
       ∧ (∀ b, Some true = Some b → useSmoothScroll c = b)
       ∧ (Some true = None → useSmoothScroll c = false)
       ∧ (∀ k, (None : option nat) = Some k → scrollIntoViewTarget c = k)
       ∧ ((None : option nat) = None → scrollIntoViewTarget c = 7).
Proof.
  apply (hook_passes_its_arguments mount
           (Sample.hook_input true (Some 7) None)
           {| in_name := "email"; in_smoothScroll := Some true;
              in_formik := Sample.formik false 1;
              in_fieldRef := Some 7; in_containerElementRef := None |} 7);
    reflexivity.
Defined.

Example Form_forces_validation_on_blur :
  formik_props (Form Demo.eager_form) !! "validateOnChange"
  = Some (CBool false)
  ∧ formik_props (Form Demo.eager_form) !! "onSubmit" = Some (CFunction 3).
Proof. by vm_compute. Qed.

Example both_value_and_options :
  (λ e, (e.1, tag_of e.2)) <$> element_positions (RenderOptions [Demo.both])
  = [([0], Some "option")].
Proof. by vm_compute. Qed.

(** ** When the hook calls the helper, over a run of renders *)

(** X19.  Over any run of renders of one instance, a render calls the helper
    if and only if some earlier render of the instance was submitting, this
    render is not, the first key of its errors is the hook's name, the
    focus-target ref is set, and this render differs from the one before it
    in [isSubmitting], in the name, in the errors object or in
    [smoothScroll].  The earlier submitting render need not be the one just
    before. *)
Theorem helper_invoked_exactly_when {E} (history : list (HookInput E))
    (r : HookInput E) :
  completed (tick history r) ≠ []
  ↔ (∃ q, q ∈ history ∧ isSubmitting (in_formik q) = true)
    ∧ isSubmitting (in_formik r) = false
    ∧ head (Object_keys (errors (in_formik r))) = Some (in_name r)
    ∧ in_fieldRef r ≠ None
    ∧ ∃ p, last history = Some p
           ∧ (isSubmitting (in_formik p) = true
              ∨ in_name p ≠ in_name r
              ∨ errors_ref (errors (in_formik p))
                ≠ errors_ref (errors (in_formik r))
              ∨ default false (in_smoothScroll p)
                ≠ default false (in_smoothScroll r)).
Proof.
  split.
  - intros Hcalls.
    assert (Hfires := Hcalls).
    destruct (tick_cases history r) as [Heq|Heq]; rewrite Heq in Hfires;
      [done|].
    apply focus_effect_fires in Hfires as (Hw & Hs & Hk & Hf).
    apply wasSubmitting_true_iff in Hw as (q & Hq & Hqs); [|done].
    split; [by exists q|]. do 3 (split; [done|]).
    destruct history as [|p history _] using rev_ind;
      [by apply elem_of_nil in Hq|].
    exists p. split; [apply last_snoc|].
    destruct (isSubmitting (in_formik p)) eqn:Hp; [by left|right].
    destruct (decide (in_name p = in_name r)) as [Hn|Hn]; [|by left].
    right.
    destruct (decide (errors_ref (errors (in_formik p))
                      = errors_ref (errors (in_formik r)))) as [He|He];
      [|by left].
    right. intros Hm. apply Hcalls.
    by rewrite tick_unchanged by congruence.
  - intros ((q & Hq & Hqs) & Hs & Hk & Hf & p & Hlast & Hchanged).
    apply last_Some in Hlast as [history' ->].
    unfold tick. rewrite useFocusInvalidField_effect, effect_deps_after.
    case_bool_decide as Hdeps.
    + exfalso. injection Hdeps as _ Hds Hdn Hde Hdm.
      destruct Hchanged as [Hc|[Hc|[Hc|Hc]]]; congruence.
    + apply focus_effect_fires. split; [|done].
      apply wasSubmitting_true_iff; [done|]. by exists q.
Qed.

(** After the render that calls the helper, renders that repeat its idle
    state, name, errors object and [smoothScroll] make no call. *)
Lemma ticks_while_unchanged {E} (r : HookInput E)
    (rs history : list (HookInput E)) (p : HookInput E) :
  isSubmitting (in_formik p) = false →
  in_name p = in_name r →
  errors_ref (errors (in_formik p)) = errors_ref (errors (in_formik r)) →
  default false (in_smoothScroll p) = default false (in_smoothScroll r) →
  Forall (λ i, isSubmitting (in_formik i) = false
               ∧ in_name i = in_name r
               ∧ errors_ref (errors (in_formik i))
                 = errors_ref (errors (in_formik r))
               ∧ default false (in_smoothScroll i)
                 = default false (in_smoothScroll r)) rs →
  ticks (history ++ [p]) rs = replicate (length rs) [].
Proof.
  intros Hs Hn He Hm Hrs. revert history p Hs Hn He Hm.
  induction Hrs as [|i rs (His & Hin & Hie & Him) _ IH];
    intros history p Hs Hn He Hm; [done|].
  cbn [ticks length replicate].
  rewrite tick_unchanged by congruence. cbn [completed]. f_equal.
  by apply IH.
Qed.

(** X20.  One submission-completion transition, one focus move, as long as
    nothing the effect depends on changes: after a submitting render, a
    render with the submission over, the hook's name as first error key and
    the focus target mounted makes exactly one helper call, and the renders
    that follow with [isSubmitting] still false and the same name, errors
    object and [smoothScroll] make none; the page sees one focus move and
    at most one scroll. *)
Theorem one_focus_while_nothing_changes {E} (page : Viewport E)
    (history : list (HookInput E)) (p r : HookInput E)
    (rs : list (HookInput E)) (f : E) :
  isSubmitting (in_formik p) = true →
  isSubmitting (in_formik r) = false →
  head (Object_keys (errors (in_formik r))) = Some (in_name r) →
  in_fieldRef r = Some f →
  Forall (λ i, isSubmitting (in_formik i) = false
               ∧ in_name i = in_name r
               ∧ errors_ref (errors (in_formik i))
                 = errors_ref (errors (in_formik r))
               ∧ default false (in_smoothScroll i)
                 = default false (in_smoothScroll r)) rs →
  (∃ c, ticks (history ++ [p]) (r :: rs) = [c] :: replicate (length rs) []
        ∧ focusTarget c = f)
  ∧ focus_moves (page_actions page (ticks (history ++ [p]) (r :: rs))) = 1
  ∧ scroll_actions (page_actions page (ticks (history ++ [p]) (r :: rs)))
    ≤ 1.
Proof.
  intros Hp Hr Hk Hf Hrs.
  set (c := {| focusTarget := f;
               scrollIntoViewTarget := default f (in_containerElementRef r);
               useSmoothScroll := default false (in_smoothScroll r) |}).
  assert (Hticks :
    ticks (history ++ [p]) (r :: rs) = [c] :: replicate (length rs) []).
  { cbn [ticks]. unfold tick at 1.
    rewrite after_renders_snoc, step_after_submitting by done.
    rewrite focus_effect_calls, Hr, Hk, Hf.
    rewrite !bool_decide_eq_true_2 by done. cbn [completed andb negb].
    f_equal. by apply (ticks_while_unchanged r). }
  split; [by exists c|].
  rewrite Hticks. unfold page_actions. cbn [concat].
  rewrite concat_replicate_nil, app_nil_r, bind_cons, app_nil_r.
  split; [apply helper_focus_moves | apply helper_scroll_actions].
Qed.

Lemma one_focus_while_nothing_changes_witness :
  (∃ c, ticks ([] ++ [Demo.hook_render true Sample.errors_email])
          (Demo.hook_render false Sample.errors_email
           :: [Demo.hook_render false Sample.errors_email;
               Demo.hook_render false Sample.errors_email])
        = [c] :: replicate 2 []
        ∧ focusTarget c = 7)
  ∧ focus_moves
      (page_actions Sample.page
         (ticks ([] ++ [Demo.hook_render true Sample.errors_email])
            (Demo.hook_render false Sample.errors_email
             :: [Demo.hook_render false Sample.errors_email;
                 Demo.hook_render false Sample.errors_email]))) = 1
  ∧ scroll_actions
      (page_actions Sample.page
         (ticks ([] ++ [Demo.hook_render true Sample.errors_email])
            (Demo.hook_render false Sample.errors_email
             :: [Demo.hook_render false Sample.errors_email;
                 Demo.hook_render false Sample.errors_email]))) ≤ 1.
Proof.
  apply (one_focus_while_nothing_changes Sample.page []
           (Demo.hook_render true Sample.errors_email)
           (Demo.hook_render false Sample.errors_email)
           [Demo.hook_render false Sample.errors_email;
            Demo.hook_render false Sample.errors_email] 7);
    [reflexivity | reflexivity | reflexivity | reflexivity |].
  repeat constructor.
Defined.
